(** * A shallow embedding of the Strapi REST client

    The repository holds two observed revisions of [client.ts]
    (the class [StrapiClient]).  Both are embedded here:

    - module [ClientA] follows the revision that threads [params] through
      every write and lets [delete] honour a locale;
    - module [ClientB] follows the revision that builds the localized URLs by
      hand and whose [delete] takes an identifier only.

    The constructor, [request], [getQueryString], [findMany] and [find] are
    textually the same in the two revisions and are embedded once.

    Strings are byte strings: a JavaScript string is read as its UTF-8
    encoding, which is what the percent-encoder of the query serializer
    emits for it. *)

From Stdlib Require Import String Ascii List ZArith Bool Lia.
From Stdlib Require Import DecimalString.
Import ListNotations.
Local Open Scope string_scope.
Local Open Scope list_scope.

(** ** Strings as JavaScript uses them *)

Module Str.

(** [s.endsWith(suffix)] *)
Fixpoint endsWith (s suffix : string) : bool :=
  if String.eqb s suffix then true
  else match s with
       | EmptyString => false
       | String _ rest => endsWith rest suffix
       end.

(** [s.replace(/\/+$/, "")]: the regular expression matches the whole run of
    slashes that ends the string, and only that one. *)
Fixpoint stripTrailingSlashes (s : string) : string :=
  match s with
  | EmptyString => EmptyString
  | String c rest =>
      let rest' := stripTrailingSlashes rest in
      if Ascii.eqb c "/" && String.eqb rest' "" then "" else String c rest'
  end.

(** [s.replace(/^\/+/, "")]: the run of slashes that starts the string. *)
Fixpoint stripLeadingSlashes (s : string) : string :=
  match s with
  | String c rest => if Ascii.eqb c "/" then stripLeadingSlashes rest else s
  | EmptyString => EmptyString
  end.

(** A run of [n] slashes. *)
Fixpoint slashes (n : nat) : string :=
  match n with
  | O => ""
  | S k => String "/" (slashes k)
  end.

(** The character [c] occurs nowhere in [s]. *)
Fixpoint lacks (c : ascii) (s : string) : bool :=
  match s with
  | EmptyString => true
  | String d rest => negb (Ascii.eqb d c) && lacks c rest
  end.

(** [parts.join(sep)] *)
Fixpoint join (sep : string) (parts : list string) : string :=
  match parts with
  | [] => ""
  | [p] => p
  | p :: rest => (p ++ sep ++ join sep rest)%string
  end.

(** [s.split(sep)] for a one-character separator. *)
Fixpoint split (sep : ascii) (s : string) : list string :=
  match s with
  | EmptyString => [""]
  | String c rest =>
      if Ascii.eqb c sep then "" :: split sep rest
      else match split sep rest with
           | p :: ps => String c p :: ps
           | [] => [String c ""]
           end
  end.

(** The part of [s] before the first occurrence of [c] (all of [s] when
    there is none). *)
Fixpoint before (c : ascii) (s : string) : string :=
  match s with
  | EmptyString => ""
  | String d rest => if Ascii.eqb d c then "" else String d (before c rest)
  end.

(** [String(n)] for an integer [n]. *)
Definition ofZ (n : Z) : string := NilZero.string_of_int (Z.to_int n).

End Str.

(** ** Construction: the stored base URL *)

Definition apiSegment : string := "/api".

(** The constructor's treatment of [baseURL]:
    [let apiUrl = baseURL.replace(/\/+$/, "");
     if (!apiUrl.endsWith("/api")) apiUrl += "/api";] *)
Definition normalizeBaseURL (baseURL : string) : string :=
  let apiUrl := Str.stripTrailingSlashes baseURL in
  if negb (Str.endsWith apiUrl apiSegment) then apiUrl ++ apiSegment else apiUrl.

(** ** JavaScript values and objects

    Query parameters, filters and payloads are plain JavaScript data.  An
    object is its list of own properties in insertion order, which is the
    order [Object.keys] and the serializer walk (property names that look like
    array indices, which JavaScript would move to the front, are not used by
    the parameter types).  Numbers are the integers, which is what
    identifiers and page sizes are.  A [bigint] is the one kind of plain data
    that JSON cannot carry; object graphs with cycles, which JSON cannot
    carry either, are not finite data and are not represented. *)

#[warnings="-register-all"]
Inductive JsValue : Type :=
| JUndefined
| JNull
| JBool (b : bool)
| JNum (n : Z)
| JBigInt (n : Z)
| JStr (s : string)
| JArr (items : list JsValue)
| JObj (fields : list (string * JsValue)).

Definition JsObject : Type := list (string * JsValue).

Module Js.

(** Truthiness of a value, as [if (v)] and [v && ...] test it. *)
Definition truthy (v : JsValue) : bool :=
  match v with
  | JUndefined | JNull => false
  | JBool b => b
  | JNum n | JBigInt n => negb (Z.eqb n 0)
  | JStr s => negb (String.eqb s "")
  | JArr _ | JObj _ => true
  end.

Definition hasKey (k : string) (o : JsObject) : bool :=
  existsb (fun kv => String.eqb (fst kv) k) o.

Fixpoint get (k : string) (o : JsObject) : JsValue :=
  match o with
  | [] => JUndefined
  | (k', v) :: rest => if String.eqb k' k then v else get k rest
  end.

(** [o[k] = v]: an existing property keeps its place, a new one goes last. *)
Fixpoint set (k : string) (v : JsValue) (o : JsObject) : JsObject :=
  match o with
  | [] => [(k, v)]
  | (k', v') :: rest =>
      if String.eqb k' k then (k', v) :: rest else (k', v') :: set k v rest
  end.

(** [{ ...a, ...b }] *)
Definition spread (a b : JsObject) : JsObject :=
  fold_left (fun acc kv => set (fst kv) (snd kv) acc) b a.

(** [{ ...v }] for a value: only objects contribute properties here (the
    payload types make [data] an object). *)
Definition props (v : JsValue) : JsObject :=
  match v with
  | JObj fields => fields
  | _ => []
  end.

End Js.

(** ** [JSON.stringify]

    The built-in throws a [TypeError] on a value that holds a [bigint]
    anywhere, and returns otherwise. *)

Module Json.

Fixpoint serializable (v : JsValue) : bool :=
  match v with
  | JBigInt _ => false
  | JArr items =>
      (fix all (l : list JsValue) : bool :=
         match l with
         | [] => true
         | x :: rest => serializable x && all rest
         end) items
  | JObj fields =>
      (fix all (l : list (string * JsValue)) : bool :=
         match l with
         | [] => true
         | (_, x) :: rest => serializable x && all rest
         end) fields
  | _ => true
  end.

End Json.

(** ** The query serializer

    Modelled from the spec: the [qs] package is an external dependency whose
    code is not part of the repository.  [Qs.stringify] follows its documented
    behaviour for the options the client passes
    ([addQueryPrefix: false], [arrayFormat: "indices"], [encode: true]):
    nested objects and arrays are flattened to bracketed keys, keys and
    values are percent-encoded, [undefined] is skipped, [null] gives an empty
    value, pairs are joined with [&]. *)

Module Qs.

Definition hexDigits : list ascii :=
  ["0"; "1"; "2"; "3"; "4"; "5"; "6"; "7"; "8"; "9";
   "A"; "B"; "C"; "D"; "E"; "F"]%char.

Definition hexDigit (n : nat) : ascii := nth n hexDigits "0"%char.

(** The escape of one byte: [%] and two upper-case hexadecimal digits. *)
Definition hexTable (c : ascii) : string :=
  let n := nat_of_ascii c in
  String "%" (String (hexDigit (n / 16)) (String (hexDigit (n mod 16)) "")).

(** The bytes the encoder leaves alone: letters, digits and [- . _ ~]. *)
Definition unreserved (c : ascii) : bool :=
  let n := nat_of_ascii c in
  (Nat.eqb n 45 || Nat.eqb n 46 || Nat.eqb n 95 || Nat.eqb n 126
   || (Nat.leb 48 n && Nat.leb n 57)
   || (Nat.leb 65 n && Nat.leb n 90)
   || (Nat.leb 97 n && Nat.leb n 122))%bool.

Fixpoint encode (s : string) : string :=
  match s with
  | EmptyString => ""
  | String c rest =>
      ((if unreserved c then String c "" else hexTable c) ++ encode rest)%string
  end.

Definition ofNat (n : nat) : string := Str.ofZ (Z.of_nat n).

(** The flattening of a value under a key prefix, as (encoded key, encoded
    value) pairs. *)
Fixpoint flatten (v : JsValue) (prefix : string) : list (string * string) :=
  match v with
  | JUndefined => []
  | JNull => [(encode prefix, "")]
  | JBool b => [(encode prefix, encode (if b then "true" else "false"))]
  | JNum n | JBigInt n => [(encode prefix, encode (Str.ofZ n))]
  | JStr s => [(encode prefix, encode s)]
  | JArr items =>
      (fix each (l : list JsValue) (i : nat) : list (string * string) :=
         match l with
         | [] => []
         | x :: rest =>
             flatten x (prefix ++ "[" ++ ofNat i ++ "]")%string
               ++ each rest (S i)
         end) items O
  | JObj fields =>
      (fix each (l : list (string * JsValue)) : list (string * string) :=
         match l with
         | [] => []
         | (k, x) :: rest =>
             flatten x (prefix ++ "[" ++ k ++ "]")%string ++ each rest
         end) fields
  end.

(** The pairs of a whole parameter object, in order. *)
Fixpoint pairs (o : JsObject) : list (string * string) :=
  match o with
  | [] => []
  | (k, v) :: rest => flatten v k ++ pairs rest
  end.

Definition stringify (o : JsObject) : string :=
  Str.join "&" (map (fun kv => (fst kv ++ "=" ++ snd kv)%string) (pairs o)).

End Qs.

(** ** Reading a query string back

    The parameter names a query string carries: what stands before the first
    [=] of each [&]-separated part, once the leading [?] is dropped. *)

Definition dropQuestionMark (q : string) : string :=
  match q with
  | String c rest => if Ascii.eqb c "?" then rest else q
  | EmptyString => q
  end.

Definition paramNames (q : string) : list string :=
  map (Str.before "=") (Str.split "&" (dropQuestionMark q)).

Definition hasParam (name q : string) : bool :=
  existsb (String.eqb name) (paramNames q).

(** ** Records, errors and responses *)

(** An identifier as the client receives it: [number | string], or nothing
    at all where the option is left out. *)
Inductive JsId : Type :=
| IdUndefined
| IdNum (n : Z)
| IdStr (s : string).

(** [if (id)] *)
Definition idTruthy (i : JsId) : bool :=
  match i with
  | IdUndefined => false
  | IdNum n => negb (Z.eqb n 0)
  | IdStr s => negb (String.eqb s "")
  end.

(** An identifier inside a template literal.  Numeric identifiers are the
    integers (fractions and non-finite numbers, which print differently, are
    not represented). *)
Definition renderId (i : JsId) : string :=
  match i with
  | IdUndefined => "undefined"
  | IdNum n => Str.ofZ n
  | IdStr s => s
  end.

(** [T extends { id: number | string; documentId?: string }]: the two fields
    the client reads from a record.  A record is assumed to carry no property
    named [length], [0] or [data]; [None] is an absent [documentId] (the
    record type has no [null] there). *)
Class StrapiEntity (T : Type) : Type := {
  id : T -> JsId;
  documentId : T -> option string
}.

(** [interface ServiceError { message: string; status?: number }] *)
Record ServiceError : Type := {
  message : string;
  status : option Z
}.

(** What the [data] field of a response envelope holds: nothing ([null] or
    absent), one record, or an array of records (with [null] holes). *)
Inductive Data (T : Type) : Type :=
| DNull
| DOne (r : T)
| DMany (items : list (option T)).
Arguments DNull {T}.
Arguments DOne {T} r.
Arguments DMany {T} items.

(** A parsed response body: JSON [null], or an envelope [{ data }]. *)
Inductive Body (T : Type) : Type :=
| BNull
| BObj (data : Data T).
Arguments BNull {T}.
Arguments BObj {T} data.

(** The outcome of [response.json()]. *)
Inductive JsonResult (T : Type) : Type :=
| JsonThrows (reason : string)
| JsonValue (value : Body T).
Arguments JsonThrows {T} reason.
Arguments JsonValue {T} value.

(** The fields of a fetch [Response] the client reads. *)
Record Response (T : Type) : Type := {
  ok : bool;
  httpStatus : Z;
  statusText : string;
  json : JsonResult T
}.
Arguments ok {T} r.
Arguments httpStatus {T} r.
Arguments statusText {T} r.
Arguments json {T} r.

(** The outcome of one call of the transport. *)
Inductive FetchResult (T : Type) : Type :=
| FetchRejects (reason : string)
| FetchResolves (response : Response T).
Arguments FetchRejects {T} reason.
Arguments FetchResolves {T} response.

(** The success range of HTTP, which is how a fetch [Response] defines its
    [ok] flag. *)
Definition inSuccessRange (code : Z) : bool :=
  (Z.leb 200 code && Z.leb code 299)%bool.

Definition fetchConformant {T : Type} (r : Response T) : Prop :=
  ok r = inSuccessRange (httpStatus r).

(** [RequestInit] as the client fills it.  The body is kept as the value
    that [JSON.stringify] serialized. *)
Record RequestInit : Type := {
  method : option string;
  body : option JsValue;
  extraHeaders : list (string * string)
}.

(** What the transport is called with: [fetch(url, { ...options, headers })]. *)
Record Request : Type := {
  url : string;
  reqMethod : option string;
  reqBody : option JsValue;
  reqHeaders : list (string * string)
}.

(** [{ ...a, ...b }] on header sets. *)
Fixpoint setHeader (k v : string) (h : list (string * string))
  : list (string * string) :=
  match h with
  | [] => [(k, v)]
  | (k', v') :: rest =>
      if String.eqb k' k then (k', v) :: rest else (k', v') :: setHeader k v rest
  end.

Definition mergeHeaders (a b : list (string * string)) : list (string * string) :=
  fold_left (fun acc kv => setHeader (fst kv) (snd kv) acc) b a.

(** The client instance: the three private fields. *)
Record StrapiClient : Type := {
  baseURL : string;
  headers : list (string * string);
  uid : string
}.

(** [constructor({ baseURL, uid, token })] *)
Definition constructor (baseURL uid : string) (token : option string)
  : StrapiClient :=
  {| baseURL := normalizeBaseURL baseURL;
     headers :=
       ("Content-Type", "application/json")
       :: match token with
          | Some t =>
              if negb (String.eqb t "") then [("Authorization", ("Bearer " ++ t)%string)]
              else []
          | None => []
          end;
     uid := uid |}.

(** ** Asynchronous code

    An [async] method either returns or throws, and calls the transport on
    its way.  The world is the list of exchanges so far, latest first; the
    transport may answer from everything it has seen. *)

Definition Exchange (T : Type) : Type := (Request * FetchResult T)%type.
Definition Transport (T : Type) : Type := list (Exchange T) -> Request -> FetchResult T.

(** What a method of the client can throw: the [TypeError] of reading
    [documentId] from a [data] that is [null] or absent (the message, which
    names the one or the other, is not modelled), and the [TypeError] of
    [JSON.stringify] on a payload it cannot serialize. *)
Inductive Exception : Type :=
| TypeErrorReadingDocumentId
| TypeErrorNotSerializable.

Inductive Completion (A : Type) : Type :=
| Fulfilled (value : A)
| Rejected (reason : Exception).
Arguments Fulfilled {A} value.
Arguments Rejected {A} reason.

Definition Async (T A : Type) : Type :=
  list (Exchange T) -> Completion A * list (Exchange T).

Definition ret {T A : Type} (a : A) : Async T A := fun w => (Fulfilled a, w).

Definition throw {T A : Type} (reason : Exception) : Async T A :=
  fun w => (Rejected reason, w).

Definition bind {T A B : Type} (m : Async T A) (k : A -> Async T B) : Async T B :=
  fun w =>
    match m w with
    | (Fulfilled a, w') => k a w'
    | (Rejected reason, w') => (Rejected reason, w')
    end.

Notation "x <- m ;; k" := (bind m (fun x => k))
  (at level 61, m at next level, right associativity).
Notation "' pat <- m ;; k" := (bind m (fun x => match x with pat => k end))
  (at level 61, pat pattern, m at next level, right associativity).

(** A method call from the outside: it starts in an empty world. *)
Definition run {T A : Type} (m : Async T A) : Completion A * list (Exchange T) :=
  m [].

(** The requests of a world, first one first. *)
Definition requestsOf {T : Type} (w : list (Exchange T)) : list Request :=
  map fst (rev w).

(** ** What the two revisions share *)

Definition defaultLocale : string := "en".

(** [JSON.stringify(v)] as an argument of a call: the call is not made when
    it throws.  The text itself is not modelled; what is sent as the body is
    kept as the value that was serialized. *)
Definition jsonStringify {T : Type} (v : JsValue) : Async T JsValue :=
  if Json.serializable v then ret v else throw TypeErrorNotSerializable.

(** [{ method: "GET" }] and the like. *)
Definition withMethod (m : string) : RequestInit :=
  {| method := Some m; body := None; extraHeaders := [] |}.

Definition withBody (m : string) (b : JsValue) : RequestInit :=
  {| method := Some m; body := Some b; extraHeaders := [] |}.

(** [options = {}] *)
Definition noOptions : RequestInit :=
  {| method := None; body := None; extraHeaders := [] |}.

(** [locale && locale !== "en" ? { locale } : {}] *)
Definition localePart (locale : option string) : JsObject :=
  match locale with
  | Some l =>
      if negb (String.eqb l "") && negb (String.eqb l defaultLocale)
      then [("locale", JStr l)] else []
  | None => []
  end.

(** [filters ? { filters } : {}] *)
Definition filtersPart (filters : option JsValue) : JsObject :=
  match filters with
  | Some f => if Js.truthy f then [("filters", f)] else []
  | None => []
  end.

(** [{ ...params }] where [params] may be [undefined]. *)
Definition orEmpty (params : option JsObject) : JsObject :=
  match params with
  | Some p => p
  | None => []
  end.

(** [locale = "en"] in a destructuring pattern. *)
Definition orDefaultLocale (locale : option string) : string :=
  match locale with
  | Some l => l
  | None => defaultLocale
  end.

(** [getQueryString(params?)] *)
Definition getQueryString (params : option JsObject) : string :=
  match params with
  | None => ""
  | Some p =>
      if Nat.eqb (List.length p) 0 then ""
      else ("?" ++ Qs.stringify p)%string
  end.

(** The HTTP-failure, parse-failure and transport-failure errors of
    [request]. *)
Definition httpError {T : Type} (r : Response T) : ServiceError :=
  {| message := ("Strapi API error: " ++ Str.ofZ (httpStatus r) ++ " " ++ statusText r)%string;
     status := Some (httpStatus r) |}.

Definition parseError {T : Type} (r : Response T) (reason : string) : ServiceError :=
  {| message := ("Strapi API error: Failed to parse JSON response - " ++ reason)%string;
     status := Some (httpStatus r) |}.

Definition transportError (reason : string) : ServiceError :=
  {| message := ("Strapi API error: " ++ reason)%string;
     status := None |}.

Definition isDELETE (m : option string) : bool :=
  match m with
  | Some s => String.eqb s "DELETE"
  | None => false
  end.

Section Shared.

Context {T : Type} `{StrapiEntity T}.
Variable fetch : Transport T.
Variable this : StrapiClient.

(** One call of the transport, recorded in the world. *)
Definition callFetch (req : Request) : Async T (FetchResult T) :=
  fun w => let r := fetch w req in (Fulfilled r, (req, r) :: w).

(** [request<R>(endpoint, options)]; the second component is [null] ([BNull])
    beside an error. *)
Definition request (endpoint : string) (options : RequestInit)
  : Async T (option ServiceError * Body T) :=
  let normalizedEndpoint := Str.stripLeadingSlashes endpoint in
  let url := (baseURL this ++ "/" ++ normalizedEndpoint)%string in
  r <- callFetch {| url := url;
                    reqMethod := method options;
                    reqBody := body options;
                    reqHeaders := mergeHeaders (headers this) (extraHeaders options) |} ;;
  match r with
  | FetchRejects reason => ret (Some (transportError reason), BNull)
  | FetchResolves response =>
      if negb (ok response) then ret (Some (httpError response), BNull)
      else
        match json response with
        | JsonValue data => ret (None, data)
        | JsonThrows reason =>
            if isDELETE (method options) then ret (None, BObj DNull)
            else ret (Some (parseError response reason), BNull)
        end
  end.

(** [response?.data], with [undefined] and [null] both read as [DNull]. *)
Definition dataOf (response : Body T) : Data T :=
  match response with
  | BNull => DNull
  | BObj d => d
  end.

(** [response?.data ?? []] *)
Definition dataOrEmpty (response : Body T) : Data T :=
  match dataOf response with
  | DNull => DMany []
  | d => d
  end.

(** [d.length > 0] *)
Definition lengthPositive (d : Data T) : bool :=
  match d with
  | DMany (_ :: _) => true
  | _ => false
  end.

(** [d?.[0]], with [undefined] and [null] both read as [None]. *)
Definition first (d : Data T) : option T :=
  match d with
  | DMany (x :: _) => x
  | _ => None
  end.

(** [x ?? null] for an optional record. *)
Definition recordOrNull (x : option T) : Data T :=
  match x with
  | Some r => DOne r
  | None => DNull
  end.

(** [if (x.documentId)]: the identifier when it is a non-empty string. *)
Definition truthyDocumentId (x : option T) : option string :=
  match x with
  | Some r =>
      match documentId r with
      | Some d => if String.eqb d "" then None else Some d
      | None => None
      end
  | None => None
  end.

(** [findMany(params?, locale?)] *)
Definition findMany (params : option JsObject) (locale : option string)
  : Async T (option ServiceError * Data T) :=
  let queryParams := Js.spread (orEmpty params) (localePart locale) in
  let queryString := getQueryString (Some queryParams) in
  '(err, response) <- request (uid this ++ queryString)%string (withMethod "GET") ;;
  match err with
  | Some e => ret (Some e, DNull)
  | None => ret (None, dataOrEmpty response)
  end.

(** [find({ id?, params?, locale? })] *)
Definition find (id : JsId) (params : option JsObject) (locale : option string)
  : Async T (option ServiceError * Data T) :=
  let queryParams := Js.spread (orEmpty params) (localePart locale) in
  let queryString := getQueryString (Some queryParams) in
  if idTruthy id then
    '(err, response) <-
      request (uid this ++ "/" ++ renderId id ++ queryString)%string
              (withMethod "GET") ;;
    match err with
    | Some e => ret (Some e, DNull)
    | None => ret (None, dataOf response)
    end
  else
    '(findErr, findResponse) <- findMany params locale ;;
    match findErr with
    | Some e => ret (Some e, DNull)
    | None => ret (None, recordOrNull (first findResponse))
    end.

(** The base record a discovery search found:
    [enResponse?.data && enResponse.data.length > 0
     && enResponse.data[0] && enResponse.data[0].documentId]
    (one revision spells the last two tests [enResponse?.data?.[0]?.documentId]). *)
Definition foundBase (enResponse : Body T) : option string :=
  match dataOf enResponse with
  | DNull => None
  | d => if lengthPositive d then truthyDocumentId (first d) else None
  end.

(** [createErr || !createResponse?.data.documentId], with the [TypeError] that
    reading [documentId] from a [null] or absent [data] throws.  [inl] is the early
    return, [inr] the identifier to go on with. *)
Definition createdBase (createErr : option ServiceError) (createResponse : Body T)
  : Async T (option ServiceError * Data T + string) :=
  match createErr with
  | Some e => ret (inl (Some e, DNull))
  | None =>
      match createResponse with
      | BNull => ret (inl (None, DNull))
      | BObj DNull => throw TypeErrorReadingDocumentId
      | BObj (DMany _) => ret (inl (None, DNull))
      | BObj (DOne r) =>
          match truthyDocumentId (Some r) with
          | Some d => ret (inr d)
          | None => ret (inl (None, DNull))
          end
      end
  end.

End Shared.

(** ** The revision whose writes carry [params] and whose [delete] takes a
    locale *)

Module ClientA.
Section Methods.

Context {T : Type} `{StrapiEntity T}.
Variable fetch : Transport T.
Variable this : StrapiClient.

(** [create({ payload, params = {}, filters, locale = "en" })] *)
Definition create (payload : JsObject) (params : option JsObject)
    (locale : option string) (filters : option JsValue)
  : Async T (option ServiceError * Data T) :=
  let params := orEmpty params in
  let locale := orDefaultLocale locale in
  let isDefaultLocale := String.eqb locale defaultLocale in
  let paramQuery := getQueryString (Some params) in
  if isDefaultLocale then
    let url := (uid this ++ paramQuery)%string in
    body <- jsonStringify (JObj payload) ;;
    '(err, response) <- request fetch this url (withBody "POST" body) ;;
    match err with
    | Some e => ret (Some e, DNull)
    | None => ret (None, dataOf response)
    end
  else
    let searchParams := Js.spread params (filtersPart filters) in
    let searchQuery := getQueryString (Some searchParams) in
    '(searchErr, enResponse) <-
      request fetch this (uid this ++ searchQuery)%string noOptions ;;
    match searchErr with
    | Some e => ret (Some e, DNull)
    | None =>
        based <-
          match foundBase enResponse with
          | Some d => ret (inr d)
          | None =>
              let defaultUrl := (uid this ++ paramQuery)%string in
              body <- jsonStringify (JObj payload) ;;
              '(createErr, createResponse) <-
                request fetch this defaultUrl (withBody "POST" body) ;;
              createdBase createErr createResponse
          end ;;
        match based with
        | inl early => ret early
        | inr baseId =>
            let localeQuery :=
              getQueryString (Some (Js.spread params [("locale", JStr locale)])) in
            let url := (uid this ++ "/" ++ baseId ++ localeQuery)%string in
            body <- jsonStringify (JObj payload) ;;
            '(err, response) <-
              request fetch this url (withBody "POST" body) ;;
            match err with
            | Some e => ret (Some e, DNull)
            | None => ret (None, dataOf response)
            end
        end
    end.

(** [update({ id, payload, params = {}, locale = "en" })] *)
Definition update (id : JsId) (payload : JsObject) (params : option JsObject)
    (locale : option string)
  : Async T (option ServiceError * Data T) :=
  let params := orEmpty params in
  let locale := orDefaultLocale locale in
  let queryParams := Js.spread params (localePart (Some locale)) in
  let queryString := getQueryString (Some queryParams) in
  let url := (uid this ++ "/" ++ renderId id ++ queryString)%string in
  body <- jsonStringify (JObj payload) ;;
  '(err, response) <- request fetch this url (withBody "PUT" body) ;;
  match err with
  | Some e => ret (Some e, DNull)
  | None => ret (None, dataOf response)
  end.

(** [delete({ id, locale? })] *)
Definition delete (id : JsId) (locale : option string)
  : Async T (option ServiceError * Data T) :=
  let queryParams := Js.spread [] (localePart locale) in
  let queryString := getQueryString (Some queryParams) in
  '(err, response) <-
    request fetch this (uid this ++ "/" ++ renderId id ++ queryString)%string
            (withMethod "DELETE") ;;
  match err with
  | Some e => ret (Some e, DNull)
  | None => ret (None, dataOf response)
  end.

(** [searchResponse?.[0]?.documentId ?? (searchResponse?.[0]?.documentId as string)] *)
Definition existingId (searchResponse : Data T) : JsId :=
  let again :=
    match first searchResponse with
    | Some r => match documentId r with Some d => IdStr d | None => IdUndefined end
    | None => IdUndefined
    end in
  match first searchResponse with
  | Some r => match documentId r with Some d => IdStr d | None => again end
  | None => again
  end.

(** The search object of [upsert]:
    [{ ...params, ...(filters ? { filters } : {}), pagination: { pageSize: 1 },
       ...(locale && locale !== "en" ? { locale } : {}) }] *)
Definition upsertSearchParams (params : JsObject) (filters : option JsValue)
    (locale : string) : JsObject :=
  Js.spread
    (Js.set "pagination" (JObj [("pageSize", JNum 1)])
       (Js.spread params (filtersPart filters)))
    (localePart (Some locale)).

(** [upsert({ payload, filters, params = {}, locale = "en" })] *)
Definition upsert (payload : JsObject) (filters : option JsValue)
    (params : option JsObject) (locale : option string)
  : Async T (option ServiceError * Data T) :=
  let params := orEmpty params in
  let locale := orDefaultLocale locale in
  let searchParams := upsertSearchParams params filters locale in
  '(searchErr, searchResponse) <-
    findMany fetch this (Some searchParams) (Some locale) ;;
  match searchErr with
  | Some e => ret (Some e, DNull)
  | None =>
      if match searchResponse with DNull => false | _ => true end
         && lengthPositive searchResponse
      then update (existingId searchResponse) payload (Some params) (Some locale)
      else
        create payload (Some params) (Some locale)
               (match filtersPart filters with
                | [] => None
                | _ => filters
                end)
  end.

End Methods.
End ClientA.

(** ** The revision that writes the localized URLs by hand and whose
    [delete] takes an identifier only *)

Module ClientB.
Section Methods.

Context {T : Type} `{StrapiEntity T}.
Variable fetch : Transport T.
Variable this : StrapiClient.

(** [{ ...payload, data: { ...payload.data, locale: "en" } }] *)
Definition withDefaultLocale (payload : JsObject) : JsObject :=
  Js.set "data"
    (JObj (Js.spread (Js.props (Js.get "data" payload))
                     [("locale", JStr defaultLocale)]))
    payload.

(** [create({ payload, params = {}, filters, locale = "en" })] *)
Definition create (payload : JsObject) (params : option JsObject)
    (locale : option string) (filters : option JsValue)
  : Async T (option ServiceError * Data T) :=
  let params := orEmpty params in
  let locale := orDefaultLocale locale in
  let isDefaultLocale := String.eqb locale defaultLocale in
  if isDefaultLocale then
    body <- jsonStringify (JObj payload) ;;
    '(err, response) <- request fetch this (uid this) (withBody "POST" body) ;;
    match err with
    | Some e => ret (Some e, DNull)
    | None => ret (None, dataOf response)
    end
  else
    let searchParams :=
      Js.spread (Js.spread params (filtersPart filters))
                [("locale", JStr defaultLocale)] in
    let searchQuery := getQueryString (Some searchParams) in
    '(searchErr, enResponse) <-
      request fetch this (uid this ++ searchQuery)%string noOptions ;;
    match searchErr with
    | Some e => ret (Some e, DNull)
    | None =>
        based <-
          match foundBase enResponse with
          | Some d => ret (inr d)
          | None =>
              body <- jsonStringify (JObj (withDefaultLocale payload)) ;;
              '(createErr, createResponse) <-
                request fetch this (uid this) (withBody "POST" body) ;;
              createdBase createErr createResponse
          end ;;
        match based with
        | inl early => ret early
        | inr baseId =>
            body <- jsonStringify (JObj payload) ;;
            '(localeErr, localeResponse) <-
              request fetch this
                      (uid this ++ "/" ++ baseId ++ "?locale=" ++ locale)%string
                      (withBody "PUT" body) ;;
            localized <- createdBase localeErr localeResponse ;;
            match localized with
            | inl early => ret early
            | inr _ => ret (None, dataOf localeResponse)
            end
        end
    end.

(** [update({ id, payload, locale = "en" })]; [params] is accepted and not
    read. *)
Definition update (id : JsId) (payload : JsObject) (params : option JsObject)
    (locale : option string)
  : Async T (option ServiceError * Data T) :=
  let locale := orDefaultLocale locale in
  let url :=
    if String.eqb locale defaultLocale
    then (uid this ++ "/" ++ renderId id)%string
    else (uid this ++ "/" ++ renderId id ++ "?locale=" ++ locale)%string in
  body <- jsonStringify (JObj payload) ;;
  '(err, response) <- request fetch this url (withBody "PUT" body) ;;
  match err with
  | Some e => ret (Some e, DNull)
  | None => ret (None, dataOf response)
  end.

(** [delete({ id })] *)
Definition delete (id : JsId) : Async T (option ServiceError * Data T) :=
  '(err, response) <-
    request fetch this (uid this ++ "/" ++ renderId id)%string
            (withMethod "DELETE") ;;
  match err with
  | Some e => ret (Some e, DNull)
  | None => ret (None, dataOf response)
  end.

(** [searchResponse?.[0].documentId ?? searchResponse?.[0].id], read once the
    first element is known to be a record. *)
Definition existingId (r : T) : JsId :=
  match documentId r with
  | Some d => IdStr d
  | None => id r
  end.

(** [upsert({ payload, filters, params = {}, locale = "en" })] *)
Definition upsert (payload : JsObject) (filters : option JsValue)
    (params : option JsObject) (locale : option string)
  : Async T (option ServiceError * Data T) :=
  let params := orEmpty params in
  let locale := orDefaultLocale locale in
  let searchParams := ClientA.upsertSearchParams params filters locale in
  '(searchErr, searchResponse) <-
    findMany fetch this (Some searchParams) (Some locale) ;;
  match searchErr with
  | Some e => ret (Some e, DNull)
  | None =>
      match (if match searchResponse with DNull => false | _ => true end
                && lengthPositive searchResponse
             then first searchResponse else None) with
      | Some r => update (existingId r) payload (Some params) (Some locale)
      | None =>
          create payload (Some params) (Some locale)
                 (match filtersPart filters with
                  | [] => None
                  | _ => filters
                  end)
      end
  end.

End Methods.
End ClientB.

(** ** The record type of the test suites: [{ id; documentId?; name }] *)

Record TestEntity : Type := {
  te_id : Z;
  te_documentId : option string;
  te_name : string
}.

#[export] Instance TestEntity_entity : StrapiEntity TestEntity :=
  {| id := fun r => IdNum (te_id r); documentId := te_documentId |}.

(** A transport that answers the n-th call with the n-th entry of a script,
    as the mocked [fetch] of the tests does, and refuses further calls. *)
Definition scripted {T : Type} (script : list (FetchResult T)) : Transport T :=
  fun w _ => nth (List.length w) script (FetchRejects "no more responses").

Definition okJson {T : Type} (code : Z) (text : string) (b : Body T) : FetchResult T :=
  FetchResolves {| ok := true; httpStatus := code; statusText := text;
                   json := JsonValue b |}.

Definition okUnparsable {T : Type} (code : Z) (text reason : string) : FetchResult T :=
  FetchResolves {| ok := true; httpStatus := code; statusText := text;
                   json := JsonThrows reason |}.

Definition notOk {T : Type} (code : Z) (text : string) : FetchResult T :=
  FetchResolves {| ok := false; httpStatus := code; statusText := text;
                   json := JsonThrows "json is not a function" |}.

Definition testClient : StrapiClient :=
  constructor "http://localhost" "test-entities" (Some "mock-token").

(** ** The public operations as one type

    A call of a public method with its options, so that a statement can range
    over every operation of either revision. *)

Inductive Revision : Type := RevA | RevB.

Inductive Call : Type :=
| CallFindMany (params : option JsObject) (locale : option string)
| CallFind (id : JsId) (params : option JsObject) (locale : option string)
| CallCreate (payload : JsObject) (params : option JsObject)
             (locale : option string) (filters : option JsValue)
| CallUpdate (id : JsId) (payload : JsObject) (params : option JsObject)
             (locale : option string)
| CallDelete (id : JsId) (locale : option string)
| CallUpsert (payload : JsObject) (filters : option JsValue)
             (params : option JsObject) (locale : option string).

Definition perform {T : Type} `{StrapiEntity T} (rev : Revision)
    (fetch : Transport T) (this : StrapiClient) (c : Call)
  : Async T (option ServiceError * Data T) :=
  match c with
  | CallFindMany params locale => findMany fetch this params locale
  | CallFind i params locale => find fetch this i params locale
  | CallCreate payload params locale filters =>
      match rev with
      | RevA => ClientA.create fetch this payload params locale filters
      | RevB => ClientB.create fetch this payload params locale filters
      end
  | CallUpdate i payload params locale =>
      match rev with
      | RevA => ClientA.update fetch this i payload params locale
      | RevB => ClientB.update fetch this i payload params locale
      end
  | CallDelete i locale =>
      match rev with
      | RevA => ClientA.delete fetch this i locale
      | RevB => ClientB.delete fetch this i
      end
  | CallUpsert payload filters params locale =>
      match rev with
      | RevA => ClientA.upsert fetch this payload filters params locale
      | RevB => ClientB.upsert fetch this payload filters params locale
      end
  end.

(** The same call with another [locale] option. *)
Definition withLocale (c : Call) (locale : option string) : Call :=
  match c with
  | CallFindMany params _ => CallFindMany params locale
  | CallFind i params _ => CallFind i params locale
  | CallCreate payload params _ filters => CallCreate payload params locale filters
  | CallUpdate i payload params _ => CallUpdate i payload params locale
  | CallDelete i _ => CallDelete i locale
  | CallUpsert payload filters params _ => CallUpsert payload filters params locale
  end.

(** The [params] option of a call ([delete] has none). *)
Definition paramsOf (c : Call) : JsObject :=
  match c with
  | CallFindMany params _ | CallFind _ params _ | CallCreate _ params _ _
  | CallUpdate _ _ params _ | CallUpsert _ _ params _ => orEmpty params
  | CallDelete _ _ => []
  end.

(** ** The single transport call of [request], taken apart

    [requestFor] is the argument [request] hands to the transport and
    [settle] is what it makes of the answer; [request_run] below shows that
    [request] is the one followed by the other. *)

Definition requestFor (this : StrapiClient) (endpoint : string)
    (options : RequestInit) : Request :=
  {| url := (baseURL this ++ "/" ++ Str.stripLeadingSlashes endpoint)%string;
     reqMethod := method options;
     reqBody := body options;
     reqHeaders := mergeHeaders (headers this) (extraHeaders options) |}.

Definition settle {T : Type} (options : RequestInit) (answer : FetchResult T)
  : option ServiceError * Body T :=
  match answer with
  | FetchRejects reason => (Some (transportError reason), BNull)
  | FetchResolves response =>
      if negb (ok response) then (Some (httpError response), BNull)
      else
        match json response with
        | JsonValue data => (None, data)
        | JsonThrows reason =>
            if isDELETE (method options) then (None, BObj DNull)
            else (Some (parseError response reason), BNull)
        end
  end.

(** What [find] makes of the outcome of [findMany] when it delegates: the
    error, or else [findResponse?.[0] ?? null]. *)
Definition firstOfMany {T : Type}
    (outcome : Completion (option ServiceError * Data T))
  : Completion (option ServiceError * Data T) :=
  match outcome with
  | Fulfilled (Some e, _) => Fulfilled (Some e, DNull)
  | Fulfilled (None, found) => Fulfilled (None, recordOrNull (first found))
  | Rejected reason => Rejected reason
  end.

(** A character the encoder never emits: outside the unreserved set, and
    neither [%] nor a hexadecimal digit. *)
Definition neverEmitted (c : ascii) : Prop :=
  Qs.unreserved c = false /\ c <> "%"%char /\ ~ In c Qs.hexDigits.

(** A flattened key under a prefix: the encoding of the prefix, possibly
    followed by bracketed property names. *)
Definition keyUnder (prefix k : string) : Prop :=
  exists s : string,
    k = Qs.encode (prefix ++ s)
    /\ (s = "" \/ exists s' : string, s = String "[" s').

(** What every pair of a flattening satisfies: the key lies under the
    prefix, and neither the key nor the value holds a separator. *)
Definition pairOk (prefix : string) (kv : string * string) : Prop :=
  keyUnder prefix (fst kv)
  /\ Str.lacks "&" (fst kv) = true
  /\ Str.lacks "=" (fst kv) = true
  /\ Str.lacks "&" (snd kv) = true.

(** ** What an answer means to [create]

    The body the client gets out of an answer to a request that is not a
    DELETE, if any. *)

Definition parsedBody {T : Type} (answer : FetchResult T) : option (Body T) :=
  match answer with
  | FetchResolves response =>
      if ok response
      then match json response with
           | JsonValue b => Some b
           | JsonThrows _ => None
           end
      else None
  | FetchRejects _ => None
  end.

(** The discovery search came back with a body. *)
Definition searchSucceeds {T : Type} (answer : FetchResult T) : bool :=
  match parsedBody answer with
  | Some _ => true
  | None => false
  end.

(** The discovery search came back with a base record: a first record that
    carries a document identifier. *)
Definition searchFinds {T : Type} `{StrapiEntity T} (answer : FetchResult T)
  : bool :=
  match parsedBody answer with
  | Some b => match foundBase b with Some _ => true | None => false end
  | None => false
  end.

(** The POST of the base record came back with a record that carries a
    document identifier. *)
Definition baseCreated {T : Type} `{StrapiEntity T} (answer : FetchResult T)
  : bool :=
  match parsedBody answer with
  | Some (BObj (DOne r)) =>
      match truthyDocumentId (Some r) with Some _ => true | None => false end
  | _ => false
  end.

(** ** The query string of a URL

    Everything from the first [?] on. *)

Fixpoint urlQuery (u : string) : string :=
  match u with
  | EmptyString => ""
  | String c rest => if Ascii.eqb c "?" then u else urlQuery rest
  end.

(** Identifiers that bring no [?] of their own into a URL. *)
Definition idSafe (i : JsId) : bool :=
  match i with
  | IdStr s => Str.lacks "?" s
  | _ => true
  end.

Definition recordSafe {T : Type} `{StrapiEntity T} (r : T) : bool :=
  idSafe (id r)
  && match documentId r with
     | Some d => Str.lacks "?" d
     | None => true
     end.

Definition answerSafe {T : Type} `{StrapiEntity T} (answer : FetchResult T)
  : bool :=
  match parsedBody answer with
  | Some (BObj (DOne r)) => recordSafe r
  | Some (BObj (DMany items)) =>
      forallb (fun x => match x with Some r => recordSafe r | None => true end)
              items
  | _ => true
  end.

(** The identifier a call names, if it names one. *)
Definition idOf (c : Call) : JsId :=
  match c with
  | CallFind i _ _ | CallUpdate i _ _ _ | CallDelete i _ => i
  | _ => IdUndefined
  end.

(** ** Sample data of the test suites *)

Definition newPayload : JsObject := [("data", JObj [("name", JStr "new")])].

Definition recordWithoutDocumentId : TestEntity :=
  {| te_id := 7; te_documentId := None; te_name := "existing" |}.

Definition recordWithDocumentId : TestEntity :=
  {| te_id := 1; te_documentId := Some "doc1"; te_name := "new" |}.

(** Scripts of answers: a localized upsert refused at its third request, a
    localized create that goes through its three steps, and an upsert that
    finds its record and updates it. *)
Definition refusedThirdStep : list (FetchResult TestEntity) :=
  [okJson 200 "OK" (BObj (DMany []));
   okJson 200 "OK" (BObj (DMany []));
   notOk 500 "Internal Server Error"].

Definition threeSteps : list (FetchResult TestEntity) :=
  [okJson 200 "OK" (BObj (DMany []));
   okJson 201 "Created" (BObj (DOne recordWithDocumentId));
   okJson 201 "Created" (BObj (DOne recordWithDocumentId))].

Definition foundThenUpdated : list (FetchResult TestEntity) :=
  [okJson 200 "OK" (BObj (DMany [Some recordWithDocumentId]));
   okJson 200 "OK" (BObj (DOne recordWithDocumentId))].

(** ** Reading calls and requests

    The payload and the locale option of a call (reads have no payload). *)

Definition payloadOf (c : Call) : JsObject :=
  match c with
  | CallCreate payload _ _ _ | CallUpdate _ payload _ _
  | CallUpsert payload _ _ _ => payload
  | _ => []
  end.

Definition localeOf (c : Call) : option string :=
  match c with
  | CallFindMany _ locale | CallFind _ _ locale | CallCreate _ _ locale _
  | CallUpdate _ _ _ locale | CallDelete _ locale | CallUpsert _ _ _ locale =>
      locale
  end.

(** The calls that run the localized create protocol: [create] and [upsert]
    in a locale other than the default. *)
Definition localizedWrite (c : Call) : bool :=
  match c with
  | CallCreate _ _ locale _ | CallUpsert _ _ _ locale =>
      negb (String.eqb (orDefaultLocale locale) defaultLocale)
  | _ => false
  end.

(** The longest sequence of requests a call can make. *)
Definition maxRequests (c : Call) : nat :=
  match c with
  | CallCreate _ _ _ _ => if localizedWrite c then 3 else 1
  | CallUpsert _ _ _ _ => if localizedWrite c then 4 else 2
  | _ => 1
  end.

(** [headers[name]] *)
Fixpoint getHeader (name : string) (h : list (string * string)) : option string :=
  match h with
  | [] => None
  | (k, v) :: rest => if String.eqb k name then Some v else getHeader name rest
  end.

(** A locale tag made of letters, digits and [- . _ ~] only, which the
    serializer leaves as it is. *)
Fixpoint plainTag (s : string) : bool :=
  match s with
  | EmptyString => true
  | String c rest => Qs.unreserved c && plainTag rest
  end.

(** What a request of a call may be, as to its body: a request without body
    that is a GET, a DELETE or has no method; a PUT of the caller's payload; a
    POST of the caller's payload, in the first revision or in a write in the
    default locale; or, in the second revision and in a localized create or
    upsert only, the POST to the collection endpoint (the POST of the base
    record) of the payload marked with the default locale. *)
Definition bodyAllowed (revision : Revision) (this : StrapiClient) (c : Call)
    (req : Request) : Prop :=
  (reqBody req = None
   /\ (reqMethod req = Some "GET" \/ reqMethod req = Some "DELETE"
       \/ reqMethod req = None))
  \/ (reqBody req = Some (JObj (payloadOf c))
      /\ (reqMethod req = Some "PUT"
          \/ (reqMethod req = Some "POST"
              /\ (revision = RevA \/ localizedWrite c = false))))
  \/ (revision = RevB
      /\ localizedWrite c = true
      /\ req = requestFor this (uid this)
                 (withBody "POST" (JObj (ClientB.withDefaultLocale (payloadOf c))))).

(** ** Base URL normalization *)

Section BaseURL.

Lemma endsWith_app (p q : string) : Str.endsWith (p ++ q) q = true.
Proof.
  induction p as [|c p IH]; cbn [Str.endsWith String.append].
  - destruct q; cbn [Str.endsWith]; now rewrite String.eqb_refl.
  - destruct (String.eqb (String c (p ++ q)) q); [reflexivity|exact IH].
Qed.

Lemma strip_app (p q : string) :
  Str.stripTrailingSlashes q <> "" ->
  Str.stripTrailingSlashes (p ++ q) = (p ++ Str.stripTrailingSlashes q)%string.
Proof.
  intros Hq. induction p as [|c p IH]; simpl; [reflexivity|].
  rewrite IH.
  destruct (p ++ Str.stripTrailingSlashes q)%string eqn:E.
  - destruct p; simpl in E; [contradiction|discriminate].
  - simpl. now rewrite andb_false_r.
Qed.

Lemma strip_idempotent (s : string) :
  Str.stripTrailingSlashes (Str.stripTrailingSlashes s) = Str.stripTrailingSlashes s.
Proof.
  induction s as [|c s IH]; simpl; [reflexivity|].
  destruct (Ascii.eqb c "/" && String.eqb (Str.stripTrailingSlashes s) "")%bool eqn:E.
  - reflexivity.
  - simpl. rewrite IH, E. reflexivity.
Qed.

Lemma strip_slashes (n : nat) : Str.stripTrailingSlashes (Str.slashes n) = "".
Proof.
  induction n as [|n IH]; simpl; [reflexivity|]. now rewrite IH.
Qed.

Lemma strip_spec (s : string) :
  exists n : nat,
    s = (Str.stripTrailingSlashes s ++ Str.slashes n)%string
    /\ Str.endsWith (Str.stripTrailingSlashes s) "/" = false.
Proof.
  induction s as [|c s [n [Hs He]]]; simpl.
  - exists O. split; reflexivity.
  - destruct (Ascii.eqb c "/") eqn:Ec; simpl.
    + apply Ascii.eqb_eq in Ec. subst c.
      destruct (Str.stripTrailingSlashes s) as [|d r] eqn:Er; simpl.
      * exists (S n). simpl. split; [now rewrite Hs at 1|reflexivity].
      * exists n. split; [now rewrite Hs at 1|].
        simpl in He. simpl.
        destruct r; simpl in *; [|exact He].
        destruct (Ascii.eqb d "/"); [discriminate|reflexivity].
    + exists n. split; [now rewrite Hs at 1|].
      rewrite Ec. simpl.
      destruct (Str.stripTrailingSlashes s) as [|d r] eqn:Er; simpl; [reflexivity|].
      simpl in He. destruct r; simpl in *; exact He.
Qed.

Lemma normalize_fixed (p : string) :
  normalizeBaseURL (p ++ apiSegment) = (p ++ apiSegment)%string.
Proof.
  unfold normalizeBaseURL.
  rewrite strip_app by (simpl; discriminate).
  change (Str.stripTrailingSlashes apiSegment) with apiSegment.
  now rewrite endsWith_app.
Qed.

End BaseURL.

Lemma strip_app_slashes (q : string) (n : nat) :
  Str.stripTrailingSlashes (q ++ Str.slashes n) = Str.stripTrailingSlashes q.
Proof.
  induction q as [|c q IH]; cbn [String.append Str.stripTrailingSlashes].
  - apply strip_slashes.
  - now rewrite IH.
Qed.

Lemma normalize_idempotent (s : string) :
  normalizeBaseURL (normalizeBaseURL s) = normalizeBaseURL s.
Proof.
  assert (Hs : normalizeBaseURL s =
               if Str.endsWith (Str.stripTrailingSlashes s) apiSegment
               then Str.stripTrailingSlashes s
               else (Str.stripTrailingSlashes s ++ apiSegment)%string).
  { unfold normalizeBaseURL.
    now destruct (Str.endsWith (Str.stripTrailingSlashes s) apiSegment). }
  rewrite Hs.
  destruct (Str.endsWith (Str.stripTrailingSlashes s) apiSegment) eqn:E.
  - unfold normalizeBaseURL. now rewrite strip_idempotent, E.
  - apply normalize_fixed.
Qed.

(** C7: the three sample inputs give the same stored base; trailing slashes
    are stripped (the stored prefix is the input without its final run of
    slashes), the API segment is appended exactly when the stripped input
    does not already end with it, an input that already ends with the segment
    (followed by any number of slashes) is stored without a second copy, and
    normalizing twice is normalizing once. *)
Theorem C7_base_url_normalization :
  normalizeBaseURL "http://h/" = "http://h/api"
  /\ normalizeBaseURL "http://h/api" = "http://h/api"
  /\ normalizeBaseURL "http://h///" = "http://h/api"
  /\ (forall s : string, exists n : nat,
         s = (Str.stripTrailingSlashes s ++ Str.slashes n)%string
         /\ Str.endsWith (Str.stripTrailingSlashes s) "/" = false)
  /\ (forall s : string,
         normalizeBaseURL s =
         if Str.endsWith (Str.stripTrailingSlashes s) apiSegment
         then Str.stripTrailingSlashes s
         else (Str.stripTrailingSlashes s ++ apiSegment)%string)
  /\ (forall (p : string) (n : nat),
         normalizeBaseURL (p ++ apiSegment ++ Str.slashes n)
         = (p ++ apiSegment)%string)
  /\ (forall s : string,
         normalizeBaseURL (normalizeBaseURL s) = normalizeBaseURL s)
  /\ (forall (s uid : string) (token : option string),
         baseURL (constructor s uid token) = normalizeBaseURL s).
Proof.
  repeat split.
  - apply strip_spec.
  - intros s. unfold normalizeBaseURL.
    now destruct (Str.endsWith (Str.stripTrailingSlashes s) apiSegment).
  - intros p n. unfold normalizeBaseURL.
    replace (p ++ apiSegment ++ Str.slashes n)%string
      with ((p ++ apiSegment) ++ Str.slashes n)%string.
    + rewrite strip_app_slashes.
      rewrite strip_app by (simpl; discriminate).
      change (Str.stripTrailingSlashes apiSegment) with apiSegment.
      now rewrite endsWith_app.
    + induction p as [|c p IH]; simpl; [reflexivity|]. now f_equal.
  - apply normalize_idempotent.
Qed.

(** ** One request, one exchange *)

Section RequestFacts.

Context {T : Type} `{StrapiEntity T}.
Variable fetch : Transport T.
Variable this : StrapiClient.

Lemma request_run (endpoint : string) (options : RequestInit)
    (w : list (Exchange T)) :
  request fetch this endpoint options w =
  (Fulfilled (settle options (fetch w (requestFor this endpoint options))),
   (requestFor this endpoint options,
    fetch w (requestFor this endpoint options)) :: w).
Proof.
  unfold request, bind, callFetch, requestFor, settle, ret.
  destruct (fetch w _) as [reason|response]; [reflexivity|].
  destruct (ok response); cbn [negb]; [|reflexivity].
  destruct (json response); [|reflexivity].
  now destruct (isDELETE (method options)).
Qed.

Lemma settle_httpFailure (options : RequestInit) (response : Response T) :
  ok response = false ->
  settle options (FetchResolves response) = (Some (httpError response), BNull).
Proof. intros E. unfold settle. now rewrite E. Qed.

Lemma settle_error_null (options : RequestInit) (answer : FetchResult T)
    (e : ServiceError) (b : Body T) :
  settle options answer = (Some e, b) -> b = BNull.
Proof.
  unfold settle. destruct answer as [reason|response].
  - now intros [= _ <-].
  - destruct (ok response); cbn [negb]; [|now intros [= _ <-]].
    destruct (json response); [|discriminate].
    destruct (isDELETE (method options)); [discriminate|now intros [= _ <-]].
Qed.

Lemma settle_unparsable (options : RequestInit) (response : Response T)
    (reason : string) :
  ok response = true -> json response = JsonThrows reason ->
  settle options (FetchResolves response) =
  if isDELETE (method options) then (None, BObj DNull)
  else (Some (parseError response reason), BNull).
Proof. intros E J. unfold settle. now rewrite E, J. Qed.

End RequestFacts.

(** ** Failures of a step end the operation *)

Ltac unfold_methods :=
  unfold perform, run in *;
  unfold ClientA.upsert, ClientB.upsert, find in *;
  unfold ClientA.create, ClientA.update, ClientA.delete,
    ClientB.create, ClientB.update, ClientB.delete, findMany in *;
  unfold createdBase, jsonStringify in *.

Ltac destruct_innermost t :=
  match t with
  | context [match ?y with _ => _ end] => destruct_innermost y
  | context [match ?y with _ => _ end] => destruct y eqn:?
  end.

(** Runs a method symbolically inside [Hrun : method ... w = (res, w')]: every
    [request] becomes one exchange with an arbitrary answer, and every test
    the method makes on the way is split. *)
Ltac evaluate fetch Hrun :=
  repeat first
    [ progress unfold bind, ret, throw in Hrun
    | progress cbv beta iota in Hrun
    | rewrite request_run in Hrun;
      match type of Hrun with
      | context [fetch ?w ?r] =>
          let answer := fresh "answer" in
          set (answer := fetch w r) in Hrun; clearbody answer
      end
    | match type of Hrun with
      | ?lhs = _ => destruct_innermost lhs
      end ].

(** Finds the place of an exchange in a world that is known cell by cell. *)
Ltac locate Hw :=
  repeat match type of Hw with
         | _ :: _ = ?post ++ _ :: _ =>
             destruct post; cbn [List.app] in Hw;
             injection Hw as ? Hw
         | [] = ?post ++ _ :: _ =>
             destruct post; discriminate Hw
         end.

Section Propagation.

Context {T : Type} `{StrapiEntity T}.
Variable fetch : Transport T.
Variable this : StrapiClient.

(** C4: in either revision and for every operation, an answer of the
    transport whose status lies outside the success range is the last exchange
    of the operation (nothing is sent after it, so the failing step is tried
    once), and the operation returns the error that carries this status and a
    message made of the status and the status text, with null data. *)
Theorem C4_http_failure_returned_once (rev : Revision) (call : Call)
    (post pre : list (Exchange T)) (req : Request) (resp : Response T) :
  snd (run (perform rev fetch this call))
    = post ++ (req, FetchResolves resp) :: pre ->
  fetchConformant resp ->
  inSuccessRange (httpStatus resp) = false ->
  post = []
  /\ fst (run (perform rev fetch this call)) =
     Fulfilled
       (Some {| message := ("Strapi API error: " ++ Str.ofZ (httpStatus resp)
                            ++ " " ++ statusText resp)%string;
                status := Some (httpStatus resp) |},
        DNull).
Proof.
  intros Hw Hc Hr.
  assert (Hok : ok resp = false) by (rewrite Hc; exact Hr).
  clear Hc Hr.
  destruct (run (perform rev fetch this call)) as [res w] eqn:Hrun.
  cbn [fst snd] in *.
  destruct rev, call; unfold_methods.
  all: evaluate fetch Hrun; injection Hrun as Hres Hwd; subst res w;
    locate Hw; subst.
  all: repeat match goal with
              | E : settle _ (FetchResolves ?r) = _, K : ok ?r = false |- _ =>
                  rewrite (settle_httpFailure _ _ K) in E; inversion E; clear E
              end; try discriminate.
  all: split; reflexivity.
Qed.

(** C5: in either revision and for every operation, an answer with a
    successful status whose body cannot be parsed is the last exchange of the
    operation.  When the request was a DELETE the operation is [delete] and
    returns [[null, null]]; for any other method the operation returns the
    error that carries the successful status and a message made of the parse
    failure text, with null data. *)
Theorem C5_unparsable_body (rev : Revision) (call : Call)
    (post pre : list (Exchange T)) (req : Request) (resp : Response T)
    (reason : string) :
  snd (run (perform rev fetch this call))
    = post ++ (req, FetchResolves resp) :: pre ->
  fetchConformant resp ->
  inSuccessRange (httpStatus resp) = true ->
  json resp = JsonThrows reason ->
  post = []
  /\ if isDELETE (reqMethod req)
     then (exists (i : JsId) (locale : option string), call = CallDelete i locale)
          /\ fst (run (perform rev fetch this call)) = Fulfilled (None, DNull)
     else fst (run (perform rev fetch this call)) =
          Fulfilled
            (Some {| message :=
                       ("Strapi API error: Failed to parse JSON response - "
                        ++ reason)%string;
                     status := Some (httpStatus resp) |},
             DNull).
Proof.
  intros Hw Hc Hr Hj.
  assert (Hok : ok resp = true) by (rewrite Hc; exact Hr).
  clear Hc Hr.
  destruct (run (perform rev fetch this call)) as [res w] eqn:Hrun.
  cbn [fst snd] in *.
  destruct rev, call; unfold_methods.
  all: evaluate fetch Hrun; injection Hrun as Hres Hwd; subst res w;
    locate Hw; subst.
  all: repeat match goal with
              | E : settle _ (FetchResolves ?r) = _, K : ok ?r = true,
                J : json ?r = JsonThrows _ |- _ =>
                  rewrite (settle_unparsable _ _ _ K J) in E;
                  cbn in E; inversion E; clear E
              end; try discriminate.
  all: split; [reflexivity|cbn; try reflexivity].
  all: split; [eauto|reflexivity].
Qed.

End Propagation.

(** ** Strings: small facts *)

Lemma append_empty_r (s : string) : (s ++ "")%string = s.
Proof. induction s as [|c s IH]; simpl; [reflexivity|now rewrite IH]. Qed.

Lemma append_assoc (a b c : string) :
  ((a ++ b) ++ c)%string = (a ++ (b ++ c))%string.
Proof. induction a as [|x a IH]; simpl; [reflexivity|now rewrite IH]. Qed.

Lemma append_nonempty_neq (s t : string) (c : ascii) :
  (s ++ String c t)%string <> s.
Proof.
  induction s as [|a s IH]; simpl; [discriminate|].
  intros [= E]. now apply IH.
Qed.

Lemma stripLeading_app (x y : string) :
  Str.stripLeadingSlashes y = y ->
  Str.stripLeadingSlashes (x ++ y) = (Str.stripLeadingSlashes x ++ y)%string.
Proof.
  intros Hy. induction x as [|c x IH]; simpl; [exact Hy|].
  destruct (Ascii.eqb c "/"); [exact IH|reflexivity].
Qed.

(** ** [find] with a falsy identifier *)

Section FindFacts.

Context {T : Type} `{StrapiEntity T}.
Variable fetch : Transport T.
Variable this : StrapiClient.

Lemma find_without_id (params : option JsObject) (locale : option string)
    (w : list (Exchange T)) :
  find fetch this IdUndefined params locale w =
  (firstOfMany (fst (findMany fetch this params locale w)),
   snd (findMany fetch this params locale w)).
Proof.
  unfold find. cbn [idTruthy]. unfold bind.
  destruct (findMany fetch this params locale w) as [[[[e|] found]|reason] w'];
    reflexivity.
Qed.

Lemma findMany_world (params : option JsObject) (locale : option string)
    (w : list (Exchange T)) :
  snd (findMany fetch this params locale w) =
  (let req := requestFor this
                (uid this ++ getQueryString
                   (Some (Js.spread (orEmpty params) (localePart locale))))
                (withMethod "GET") in
   (req, fetch w req) :: w).
Proof.
  unfold findMany, bind. rewrite request_run.
  destruct (settle _ _) as [[e|] b]; reflexivity.
Qed.

(** C10: [find({ id: 0 })] and [find({ id: "" })] are the call without an
    identifier.  That call sends the one request [findMany] sends with the
    same params and locale, the GET of the collection endpoint, and its result
    follows that of [findMany]: the same error with null data; else the first
    element of the returned list when it is a record; else null (an empty
    list, a [null] first element, or data that is no list). *)
Theorem C10_find_falsy_id_is_find_without_id
    (params : option JsObject) (locale : option string) :
  find fetch this (IdNum 0) params locale
    = find fetch this IdUndefined params locale
  /\ find fetch this (IdStr "") params locale
     = find fetch this IdUndefined params locale
  /\ forall w : list (Exchange T),
       find fetch this IdUndefined params locale w =
       (firstOfMany (fst (findMany fetch this params locale w)),
        snd (findMany fetch this params locale w))
       /\ snd (find fetch this IdUndefined params locale w) =
          (let req := requestFor this
                        (uid this ++ getQueryString
                           (Some (Js.spread (orEmpty params) (localePart locale))))
                        (withMethod "GET") in
           (req, fetch w req) :: w)
       /\ match fst (findMany fetch this params locale w) with
          | Fulfilled (Some e, _) =>
              fst (find fetch this IdUndefined params locale w)
              = Fulfilled (Some e, DNull)
          | Fulfilled (None, DMany (Some r :: _)) =>
              fst (find fetch this IdUndefined params locale w)
              = Fulfilled (None, DOne r)
          | Fulfilled (None, _) =>
              fst (find fetch this IdUndefined params locale w)
              = Fulfilled (None, DNull)
          | Rejected thrown =>
              fst (find fetch this IdUndefined params locale w)
              = Rejected thrown
          end.
Proof.
  split; [reflexivity|]. split; [reflexivity|].
  intros w. rewrite find_without_id. cbn [fst snd].
  split; [reflexivity|]. split; [apply findMany_world|].
  destruct (fst (findMany fetch this params locale w))
    as [[[e|] [|r|[|[r|] items]]]|thrown]; reflexivity.
Qed.

End FindFacts.

(** ** The query-string helper *)

(** C6 as stated fails: for a struct with one parameter the helper's output
    is not the bare serialization, it starts with [?]. *)
Lemma C6_helper_output_starts_with_question_mark :
  getQueryString (Some [("locale", JStr "fr")]) = "?locale=fr"
  /\ Qs.stringify [("locale", JStr "fr")] = "locale=fr"
  /\ getQueryString (Some [("locale", JStr "fr")])
     <> Qs.stringify [("locale", JStr "fr")].
Proof.
  split; [reflexivity|]. split; [reflexivity|]. discriminate.
Qed.

(** C6, amended: the helper returns the empty string for an absent or empty
    struct; for every non-empty struct it returns [?] followed by the
    serialization (the serializer adds no prefix of its own, the helper
    does), and a caller such as [findMany] appends the helper's output to the
    path as it is. *)
Theorem C6_getQueryString_embeds_question_mark :
  getQueryString None = ""
  /\ getQueryString (Some []) = ""
  /\ (forall (k : string) (v : JsValue) (rest : JsObject),
         getQueryString (Some ((k, v) :: rest))
         = String "?" (Qs.stringify ((k, v) :: rest)))
  /\ (forall (T : Type) (E : StrapiEntity T) (fetch : Transport T)
             (this : StrapiClient) (k : string) (v : JsValue) (rest : JsObject),
         requestsOf (snd (run (findMany fetch this (Some ((k, v) :: rest)) None)))
         = [requestFor this
              (uid this ++ String "?" (Qs.stringify ((k, v) :: rest)))
              (withMethod "GET")]).
Proof.
  repeat split.
  intros T E fetch this k v rest.
  unfold run. rewrite findMany_world. reflexivity.
Qed.

(** ** [delete] in the two revisions *)

Lemma deleteA_world {T : Type} `{StrapiEntity T} (fetch : Transport T)
    (this : StrapiClient) (i : JsId) (locale : option string)
    (w : list (Exchange T)) :
  snd (ClientA.delete fetch this i locale w) =
  (let req := requestFor this
                (uid this ++ "/" ++ renderId i
                 ++ getQueryString (Some (Js.spread [] (localePart locale))))
                (withMethod "DELETE") in
   (req, fetch w req) :: w).
Proof.
  unfold ClientA.delete, bind. rewrite request_run.
  destruct (settle _ _) as [[e|] b]; reflexivity.
Qed.

Lemma deleteB_world {T : Type} `{StrapiEntity T} (fetch : Transport T)
    (this : StrapiClient) (i : JsId) (w : list (Exchange T)) :
  snd (ClientB.delete fetch this i w) =
  (let req := requestFor this (uid this ++ "/" ++ renderId i)
                (withMethod "DELETE") in
   (req, fetch w req) :: w).
Proof.
  unfold ClientB.delete, bind. rewrite request_run.
  destruct (settle _ _) as [[e|] b]; reflexivity.
Qed.

Lemma deleteA_default_is_deleteB {T : Type} `{StrapiEntity T}
    (fetch : Transport T) (this : StrapiClient) (i : JsId) :
  ClientA.delete fetch this i None = ClientB.delete fetch this i
  /\ ClientA.delete fetch this i (Some defaultLocale) = ClientB.delete fetch this i.
Proof.
  unfold ClientA.delete, ClientB.delete. cbn [localePart Js.spread fold_left].
  cbn. rewrite append_empty_r. split; reflexivity.
Qed.

(** C9: for the locale [fr] the first revision sends its DELETE to the item
    URL with [?locale=fr] appended and the second sends it to the bare item
    URL, so the two differ; without a locale, or with the default one, the two
    revisions of [delete] are the same computation, sending the bare item
    URL. *)
Theorem C9_delete_revisions_differ_on_locale :
  (exists locale : string,
      locale <> defaultLocale
      /\ forall (T : Type) (E : StrapiEntity T) (fetch : Transport T)
                (this : StrapiClient) (i : JsId),
        let viaA := requestsOf (snd (run (ClientA.delete fetch this i (Some locale)))) in
        let viaB := requestsOf (snd (run (ClientB.delete fetch this i))) in
        let itemUrl :=
          (baseURL this ++ "/"
           ++ Str.stripLeadingSlashes (uid this ++ "/" ++ renderId i))%string in
        map url viaA = [(itemUrl ++ "?locale=" ++ locale)%string]
        /\ map url viaB = [itemUrl]
        /\ map reqMethod viaA = [Some "DELETE"]
        /\ map reqMethod viaB = [Some "DELETE"]
        /\ viaA <> viaB)
  /\ (forall (T : Type) (E : StrapiEntity T) (fetch : Transport T)
             (this : StrapiClient) (i : JsId),
         ClientA.delete fetch this i None = ClientB.delete fetch this i
         /\ ClientA.delete fetch this i (Some defaultLocale)
            = ClientB.delete fetch this i
         /\ map url (requestsOf (snd (run (ClientB.delete fetch this i))))
            = [(baseURL this ++ "/"
                ++ Str.stripLeadingSlashes (uid this ++ "/" ++ renderId i))%string]).
Proof.
  split.
  - exists "fr". split; [discriminate|].
    intros T E fetch this i. cbv zeta.
    assert (HA : map url (requestsOf (snd (run (ClientA.delete fetch this i (Some "fr")))))
                 = [((baseURL this ++ "/"
                      ++ Str.stripLeadingSlashes (uid this ++ "/" ++ renderId i))
                     ++ "?locale=" ++ "fr")%string]).
    { unfold run. rewrite deleteA_world. cbv zeta.
      unfold requestsOf.
      cbn [rev List.app map fst url reqMethod requestFor withMethod method].
      change (getQueryString (Some (Js.spread [] (localePart (Some "fr")))))
        with "?locale=fr".
      rewrite <- (append_assoc (uid this) "/" (renderId i ++ "?locale=fr")).
      rewrite <- (append_assoc (uid this ++ "/") (renderId i) "?locale=fr").
      rewrite stripLeading_app by reflexivity.
      rewrite (append_assoc (uid this) "/" (renderId i)).
      now rewrite !append_assoc. }
    assert (HB : map url (requestsOf (snd (run (ClientB.delete fetch this i))))
                 = [(baseURL this ++ "/"
                     ++ Str.stripLeadingSlashes (uid this ++ "/" ++ renderId i))%string]).
    { unfold run. rewrite deleteB_world. reflexivity. }
    split; [exact HA|]. split; [exact HB|].
    split; [unfold run; rewrite deleteA_world; reflexivity|].
    split; [unfold run; rewrite deleteB_world; reflexivity|].
    intros E1. rewrite E1, HB in HA. injection HA as HA.
    symmetry in HA. revert HA. apply append_nonempty_neq.
  - intros T E fetch this i.
    destruct (deleteA_default_is_deleteB fetch this i) as [E1 E2].
    repeat split; [exact E1|exact E2|].
    unfold run. rewrite deleteB_world. reflexivity.
Qed.

(** ** How many requests [create] sends *)

Section CreateCounts.

Context {T : Type} `{StrapiEntity T}.
Variable fetch : Transport T.
Variable this : StrapiClient.

Lemma settle_parsed (options : RequestInit) (answer : FetchResult T) (b : Body T) :
  isDELETE (method options) = false ->
  settle options answer = (None, b) -> parsedBody answer = Some b.
Proof.
  intros Hd. unfold settle, parsedBody.
  destruct answer as [reason|response]; [discriminate|].
  destruct (ok response); cbn [negb]; [|discriminate].
  destruct (json response); [|now intros [= <-]].
  rewrite Hd. discriminate.
Qed.

Lemma settle_error_parsed (options : RequestInit) (answer : FetchResult T)
    (e : ServiceError) (b : Body T) :
  isDELETE (method options) = false ->
  settle options answer = (Some e, b) -> parsedBody answer = None.
Proof.
  intros Hd. unfold settle, parsedBody.
  destruct answer as [reason|response]; [reflexivity|].
  destruct (ok response); cbn [negb]; [|reflexivity].
  destruct (json response); [reflexivity|discriminate].
Qed.

(** Turns what is known of [settle] into what is known of [parsedBody]. *)
Ltac read_answers :=
  repeat match goal with
         | E : settle ?o ?a = (None, ?b) |- _ =>
             let P := fresh "P" in
             assert (P : parsedBody a = Some b)
               by (apply (settle_parsed o); [reflexivity|exact E]);
             clear E
         | E : settle ?o ?a = (Some ?e, ?b) |- _ =>
             let P := fresh "P" in
             assert (P : parsedBody a = None)
               by (apply (settle_error_parsed o a e b); [reflexivity|exact E]);
             clear E
         end.

Lemma serializable_fields (o : JsObject) :
  Json.serializable (JObj o) = forallb (fun kv => Json.serializable (snd kv)) o.
Proof.
  induction o as [|[k v] o IH]; [reflexivity|].
  cbn [forallb snd]. rewrite <- IH. reflexivity.
Qed.

Lemma serializable_get (k : string) (o : JsObject) :
  Json.serializable (JObj o) = true -> Json.serializable (Js.get k o) = true.
Proof.
  rewrite serializable_fields.
  induction o as [|[k0 v0] o IH]; cbn [forallb Js.get snd]; [reflexivity|].
  intros Ho. apply andb_prop in Ho as [Hv Ho].
  destruct (String.eqb k0 k); [exact Hv|now apply IH].
Qed.

Lemma serializable_set (k : string) (v : JsValue) (o : JsObject) :
  Json.serializable v = true -> Json.serializable (JObj o) = true ->
  Json.serializable (JObj (Js.set k v o)) = true.
Proof.
  rewrite !serializable_fields. intros Hv.
  induction o as [|[k0 v0] o IH]; cbn [forallb Js.set snd].
  - now rewrite Hv.
  - intros Ho. apply andb_prop in Ho as [H0 Ho].
    destruct (String.eqb k0 k); cbn [forallb snd].
    + now rewrite Hv, Ho.
    + now rewrite H0, IH.
Qed.

Lemma serializable_props (v : JsValue) :
  Json.serializable v = true -> Json.serializable (JObj (Js.props v)) = true.
Proof. destruct v; cbn [Js.props]; trivial. Qed.

Lemma serializable_withDefaultLocale (payload : JsObject) :
  Json.serializable (JObj payload) = true ->
  Json.serializable (JObj (ClientB.withDefaultLocale payload)) = true.
Proof.
  intros Hp. unfold ClientB.withDefaultLocale.
  apply serializable_set; [|exact Hp].
  cbn [Js.spread fold_left fst snd].
  apply serializable_set; [reflexivity|].
  apply serializable_props, serializable_get, Hp.
Qed.

(** C3, amended: for a payload that [JSON.stringify] accepts, a create in the
    default locale sends one request, the POST of the payload.  In another
    locale the search (no method, no body) is sent first; if it fails nothing
    else is sent; if it finds a base record (a first record with a document
    identifier) one more request is sent, the localized write of the payload,
    two in all; if it succeeds without finding one, the POST of the base
    record is sent second, and the localized write follows as a third request
    exactly when that POST came back with a record that carries a document
    identifier: three in all then, and two otherwise. *)
Theorem C3_create_request_counts (revision : Revision)
    (payload : JsObject) (params : option JsObject) (locale : option string)
    (filters : option JsValue) :
  Json.serializable (JObj payload) = true ->
  let w := snd (run (perform revision fetch this
                       (CallCreate payload params locale filters))) in
  let sent := requestsOf w in
  let answers := map snd (List.rev w) in
  let writeVerb := match revision with RevA => "POST" | RevB => "PUT" end in
  let baseBody :=
    match revision with
    | RevA => JObj payload
    | RevB => JObj (ClientB.withDefaultLocale payload)
    end in
  (orDefaultLocale locale = defaultLocale ->
   List.length w = 1%nat
   /\ exists post : Request,
        sent = [post]
        /\ reqMethod post = Some "POST" /\ reqBody post = Some (JObj payload))
  /\ (orDefaultLocale locale <> defaultLocale ->
      exists (search : Request) (a1 : FetchResult T) (rest : list Request),
        sent = search :: rest
        /\ reqMethod search = None /\ reqBody search = None
        /\ nth_error answers 0 = Some a1
        /\ (searchSucceeds a1 = false -> List.length w = 1%nat /\ rest = [])
        /\ (searchFinds a1 = true ->
            List.length w = 2%nat
            /\ exists write : Request,
                 rest = [write]
                 /\ reqMethod write = Some writeVerb
                 /\ reqBody write = Some (JObj payload))
        /\ (searchSucceeds a1 = true -> searchFinds a1 = false ->
            exists (post : Request) (a2 : FetchResult T),
              nth_error answers 1 = Some a2
              /\ (if baseCreated a2
                  then List.length w = 3%nat
                       /\ exists write : Request,
                            rest = [post; write]
                            /\ reqMethod write = Some writeVerb
                            /\ reqBody write = Some (JObj payload)
                  else List.length w = 2%nat /\ rest = [post])
              /\ reqMethod post = Some "POST" /\ reqBody post = Some baseBody)).
Proof.
  intros Hs. cbv zeta.
  pose proof (serializable_withDefaultLocale payload Hs) as Hs'.
  destruct (run (perform revision fetch this
                   (CallCreate payload params locale filters))) as [res w] eqn:Hrun.
  cbn [snd].
  destruct revision; unfold_methods.
  all: evaluate fetch Hrun; apply pair_equal_spec in Hrun;
    destruct Hrun as [Hres Hwd]; subst res w; try discriminate.
  all: read_answers.
  all: split; [intros Hl|intros Hl].
  all: try (apply String.eqb_neq in Hl; congruence).
  all: try (apply String.eqb_eq in Hl; congruence).
  all: unfold requestsOf;
    cbn [List.rev List.app map snd fst nth_error List.length].
  all: try (split; [reflexivity|eexists; repeat split; reflexivity]).
  all: eexists; eexists; eexists.
  all: split; [reflexivity|]; split; [reflexivity|]; split; [reflexivity|];
    split; [reflexivity|].
  all: unfold searchSucceeds, searchFinds.
  all: repeat match goal with P : parsedBody _ = _ |- _ => rewrite P end.
  all: repeat match goal with F : foundBase _ = _ |- _ => rewrite F end.
  all: split; [intros; try discriminate; split; reflexivity|].
  all: split; [intros; first [discriminate
                              |split; [reflexivity|];
                               eexists; repeat split; reflexivity]|].
  all: intros; try discriminate.
  all: eexists; eexists; split; [reflexivity|].
  all: unfold baseCreated.
  all: repeat match goal with P : parsedBody _ = _ |- _ => rewrite P end.
  all: repeat match goal with F : truthyDocumentId _ = _ |- _ => rewrite F end.
  all: split;
    [ first [ split; reflexivity
            | split; [reflexivity|eexists; repeat split; reflexivity] ]
    | split; reflexivity ].
Qed.

End CreateCounts.

(** ** Query strings read back *)

Section QueryFacts.

Lemma lacks_app (c : ascii) (a b : string) :
  Str.lacks c (a ++ b) = (Str.lacks c a && Str.lacks c b)%bool.
Proof.
  induction a as [|x a IH]; simpl; [reflexivity|].
  rewrite IH. now rewrite andb_assoc.
Qed.

Lemma before_app (c : ascii) (k v : string) :
  Str.lacks c k = true -> Str.before c (k ++ String c v) = k.
Proof.
  induction k as [|x k IH]; simpl.
  - now rewrite Ascii.eqb_refl.
  - intros Hk. apply andb_prop in Hk as [Hx Hk].
    apply negb_true_iff in Hx. rewrite Hx. now rewrite IH.
Qed.

Lemma split_lacks (c : ascii) (s : string) :
  Str.lacks c s = true -> Str.split c s = [s].
Proof.
  induction s as [|x s IH]; simpl; [reflexivity|].
  intros Hs. apply andb_prop in Hs as [Hx Hs].
  apply negb_true_iff in Hx. rewrite Hx, (IH Hs). reflexivity.
Qed.

Lemma split_app (c : ascii) (a b : string) :
  Str.lacks c a = true ->
  Str.split c (a ++ String c b) = a :: Str.split c b.
Proof.
  induction a as [|x a IH]; simpl.
  - now rewrite Ascii.eqb_refl.
  - intros Ha. apply andb_prop in Ha as [Hx Ha].
    apply negb_true_iff in Hx. rewrite Hx, (IH Ha). reflexivity.
Qed.

Lemma split_join (c : ascii) (p : string) (parts : list string) :
  Forall (fun x => Str.lacks c x = true) (p :: parts) ->
  Str.split c (Str.join (String c "") (p :: parts)) = p :: parts.
Proof.
  revert p. induction parts as [|q parts IH]; intros p Hall.
  - apply split_lacks. now inversion Hall.
  - inversion Hall as [|? ? Hp Hrest]; subst.
    change (Str.join (String c "") (p :: q :: parts))
      with (p ++ String c (Str.join (String c "") (q :: parts)))%string.
    rewrite split_app by exact Hp. now rewrite IH.
Qed.

Lemma hexDigit_in (n : nat) : In (Qs.hexDigit n) Qs.hexDigits.
Proof.
  unfold Qs.hexDigit.
  destruct (Nat.lt_ge_cases n (List.length Qs.hexDigits)) as [Hlt|Hge].
  - now apply nth_In.
  - rewrite nth_overflow by exact Hge. now left.
Qed.

Lemma encode_lacks (c : ascii) (s : string) :
  neverEmitted c -> Str.lacks c (Qs.encode s) = true.
Proof.
  intros (Hu & Hp & Hh).
  induction s as [|x s IH]; [reflexivity|].
  cbn [Qs.encode]. rewrite lacks_app, IH, andb_true_r.
  destruct (Qs.unreserved x) eqn:Ex.
  - cbn [Str.lacks]. rewrite andb_true_r. apply negb_true_iff.
    apply Ascii.eqb_neq. intros ->. congruence.
  - unfold Qs.hexTable. cbn [Str.lacks].
    rewrite !andb_true_r.
    repeat (apply andb_true_intro; split);
      apply negb_true_iff, Ascii.eqb_neq.
    + congruence.
    + intros E. apply Hh. rewrite <- E. apply hexDigit_in.
    + intros E. apply Hh. rewrite <- E. apply hexDigit_in.
Qed.

Lemma ampersand_neverEmitted : neverEmitted "&".
Proof.
  repeat split; [discriminate|].
  cbn. intros Hin. repeat (destruct Hin as [Hin|Hin]; [discriminate|]). exact Hin.
Qed.

Lemma equals_neverEmitted : neverEmitted "=".
Proof.
  repeat split; [discriminate|].
  cbn. intros Hin. repeat (destruct Hin as [Hin|Hin]; [discriminate|]). exact Hin.
Qed.

(** The encoder is the identity on whatever it encodes to a string without
    [%]. *)
Lemma encode_plain (p t : string) :
  Str.lacks "%" t = true -> Qs.encode p = t -> p = t.
Proof.
  revert t. induction p as [|x p IH]; intros t Ht E; cbn [Qs.encode] in E.
  - exact E.
  - destruct (Qs.unreserved x).
    + destruct t as [|y t]; [discriminate|].
      cbn in E. injection E as <- E.
      cbn [Str.lacks] in Ht. apply andb_prop in Ht as [_ Ht].
      f_equal. now apply IH.
    + unfold Qs.hexTable in E. cbn in E. subst t. discriminate.
Qed.

End QueryFacts.

(** ** The locale parameter of the query string *)

Section FlattenFacts.

Lemma JsValue_nested_ind (P : JsValue -> Prop) :
  P JUndefined -> P JNull -> (forall b, P (JBool b)) -> (forall n, P (JNum n)) ->
  (forall n, P (JBigInt n)) -> (forall s, P (JStr s)) ->
  (forall items, Forall P items -> P (JArr items)) ->
  (forall fields, Forall (fun kv => P (snd kv)) fields -> P (JObj fields)) ->
  forall v, P v.
Proof.
  intros Hu Hn Hb Hz Hg Hs Ha Ho.
  fix IH 1. intros [ | | b | n | n | s | items | fields].
  - exact Hu.
  - exact Hn.
  - apply Hb.
  - apply Hz.
  - apply Hg.
  - apply Hs.
  - apply Ha. induction items as [|x items IHi]; constructor; [apply IH|exact IHi].
  - apply Ho. induction fields as [|[k x] fields IHf]; constructor;
      [apply IH|exact IHf].
Qed.

Lemma keyUnder_self (prefix : string) : keyUnder prefix (Qs.encode prefix).
Proof. exists "". rewrite append_empty_r. split; [reflexivity|now left]. Qed.

Lemma keyUnder_deeper (prefix name k : string) :
  keyUnder (prefix ++ "[" ++ name ++ "]") k -> keyUnder prefix k.
Proof.
  intros (s & -> & _).
  exists ("[" ++ name ++ "]" ++ s)%string. split.
  - f_equal. rewrite !append_assoc. reflexivity.
  - right. eexists. reflexivity.
Qed.

Lemma leaf_ok (prefix value : string) :
  pairOk prefix (Qs.encode prefix, Qs.encode value).
Proof.
  repeat split; cbn [fst snd].
  - apply keyUnder_self.
  - apply encode_lacks, ampersand_neverEmitted.
  - apply encode_lacks, equals_neverEmitted.
  - apply encode_lacks, ampersand_neverEmitted.
Qed.

Lemma pairOk_deeper (prefix name : string) (kv : string * string) :
  pairOk (prefix ++ "[" ++ name ++ "]") kv -> pairOk prefix kv.
Proof.
  intros (Hk & H1 & H2 & H3). repeat split; try assumption.
  now apply keyUnder_deeper with name.
Qed.

Lemma flatten_ok (v : JsValue) :
  forall prefix : string, Forall (pairOk prefix) (Qs.flatten v prefix).
Proof.
  induction v as [ | | b | n | n | s | items IH | fields IH ]
    using JsValue_nested_ind;
    intros prefix; cbn [Qs.flatten].
  - constructor.
  - constructor; [|constructor]. apply (leaf_ok prefix "").
  - constructor; [|constructor]. apply leaf_ok.
  - constructor; [|constructor]. apply leaf_ok.
  - constructor; [|constructor]. apply leaf_ok.
  - constructor; [|constructor]. apply leaf_ok.
  - generalize O. induction IH as [|x items Hx _ IHitems]; intros i.
    + constructor.
    + apply Forall_app. split; [|apply IHitems].
      eapply Forall_impl; [|apply Hx].
      intros kv. apply pairOk_deeper.
  - induction IH as [|[k x] fields Hx _ IHfields].
    + constructor.
    + apply Forall_app. split; [|apply IHfields].
      eapply Forall_impl; [|apply Hx].
      intros kv. apply pairOk_deeper.
Qed.

Lemma keyUnder_not_locale (top k : string) :
  String.eqb top "locale" = false -> keyUnder top k ->
  String.eqb "locale" k = false.
Proof.
  intros Htop (s & -> & Hs).
  apply String.eqb_neq. intros E. symmetry in E.
  apply encode_plain in E; [|reflexivity].
  destruct Hs as [->|[s' ->]].
  - rewrite append_empty_r in E. subst top. discriminate.
  - assert (L : Str.lacks "[" (top ++ String "[" s') = true) by now rewrite E.
    rewrite lacks_app in L. cbn in L. now rewrite andb_false_r in L.
Qed.

Lemma pairs_ok (o : JsObject) :
  Js.hasKey "locale" o = false ->
  Forall (fun kv => String.eqb "locale" (fst kv) = false
                    /\ Str.lacks "&" (fst kv) = true
                    /\ Str.lacks "=" (fst kv) = true
                    /\ Str.lacks "&" (snd kv) = true)
         (Qs.pairs o).
Proof.
  induction o as [|[top v] o IH]; intros Hk; cbn [Qs.pairs].
  - constructor.
  - cbn in Hk. apply orb_false_elim in Hk as [Htop Hk].
    apply Forall_app. split; [|now apply IH].
    eapply Forall_impl; [|apply flatten_ok].
    intros kv (Hu & H1 & H2 & H3). repeat split; try assumption.
    now apply keyUnder_not_locale with top.
Qed.

Lemma names_of_pairs (ps : list (string * string)) :
  Forall (fun kv => String.eqb "locale" (fst kv) = false
                    /\ Str.lacks "&" (fst kv) = true
                    /\ Str.lacks "=" (fst kv) = true
                    /\ Str.lacks "&" (snd kv) = true) ps ->
  existsb (String.eqb "locale")
    (map (Str.before "=")
       (Str.split "&"
          (Str.join "&" (map (fun kv => (fst kv ++ "=" ++ snd kv)%string) ps))))
  = false.
Proof.
  intros Hall. destruct ps as [|p ps]; [reflexivity|].
  cbn [map]. rewrite split_join.
  - rewrite <- (map_cons (fun kv => (fst kv ++ "=" ++ snd kv)%string)).
    induction Hall as [|kv rest (Hn & H1 & H2 & H3) _ IH]; [reflexivity|].
    cbn [map existsb]. rewrite IH, orb_false_r.
    change (fst kv ++ "=" ++ snd kv)%string with (fst kv ++ String "=" (snd kv))%string.
    now rewrite before_app.
  - rewrite <- (map_cons (fun kv => (fst kv ++ "=" ++ snd kv)%string)).
    apply Forall_map. eapply Forall_impl; [|exact Hall].
    intros kv (Hn & H1 & H2 & H3). cbn beta.
    rewrite lacks_app, H1. cbn. exact H3.
Qed.

Lemma getQueryString_without_locale (o : JsObject) :
  Js.hasKey "locale" o = false ->
  hasParam "locale" (getQueryString (Some o)) = false.
Proof.
  intros Hk. unfold getQueryString.
  destruct o as [|kv o]; [reflexivity|]. cbn [List.length Nat.eqb].
  unfold hasParam, paramNames, Qs.stringify.
  cbn [dropQuestionMark String.append]. rewrite Ascii.eqb_refl.
  apply names_of_pairs, pairs_ok, Hk.
Qed.

End FlattenFacts.

Section UrlFacts.

Lemma urlQuery_app (a b : string) :
  Str.lacks "?" a = true -> urlQuery (a ++ b) = urlQuery b.
Proof.
  induction a as [|x a IH]; cbn [String.append Str.lacks urlQuery]; [reflexivity|].
  intros Ha. apply andb_prop in Ha as [Hx Ha].
  apply negb_true_iff in Hx. rewrite Hx. now apply IH.
Qed.

Lemma urlQuery_lacks (a : string) : Str.lacks "?" a = true -> urlQuery a = "".
Proof.
  intros Ha. rewrite <- (append_empty_r a). now rewrite urlQuery_app.
Qed.

Lemma urlQuery_stripLeading (s : string) :
  urlQuery (Str.stripLeadingSlashes s) = urlQuery s.
Proof.
  induction s as [|x s IH]; [reflexivity|].
  cbn [Str.stripLeadingSlashes].
  destruct (Ascii.eqb x "/") eqn:Ex; [|reflexivity].
  apply Ascii.eqb_eq in Ex. subst x. rewrite IH. reflexivity.
Qed.

Lemma urlQuery_getQueryString (params : option JsObject) :
  urlQuery (getQueryString params) = getQueryString params.
Proof.
  destruct params as [[|kv o]|]; reflexivity.
Qed.

Lemma lacks_digits (d : Decimal.uint) :
  Str.lacks "?" (NilEmpty.string_of_uint d) = true.
Proof. induction d; cbn; assumption || reflexivity. Qed.

Lemma lacks_ofZ (n : Z) : Str.lacks "?" (Str.ofZ n) = true.
Proof.
  unfold Str.ofZ, NilZero.string_of_int, NilZero.string_of_uint.
  destruct (Z.to_int n) as [d|d]; destruct d; cbn; try reflexivity;
    apply lacks_digits.
Qed.

Lemma renderId_safe (i : JsId) :
  idSafe i = true -> Str.lacks "?" (renderId i) = true.
Proof.
  destruct i as [|n|s]; cbn; [reflexivity|intros _; apply lacks_ofZ|trivial].
Qed.

Variable this : StrapiClient.
Hypothesis base_safe : Str.lacks "?" (baseURL this) = true.
Hypothesis uid_safe : Str.lacks "?" (uid this) = true.

Lemma endpoint_query (path q : string) (options : RequestInit) :
  Str.lacks "?" path = true -> urlQuery q = q ->
  urlQuery (url (requestFor this (path ++ q) options)) = q.
Proof.
  intros Hp Hq. cbn [url requestFor].
  rewrite urlQuery_app by exact base_safe.
  change ("/" ++ Str.stripLeadingSlashes (path ++ q))%string
    with (String "/" (Str.stripLeadingSlashes (path ++ q))).
  cbn [urlQuery]. cbn.
  rewrite urlQuery_stripLeading, urlQuery_app by exact Hp. exact Hq.
Qed.

Lemma collection_query (params : option JsObject) (options : RequestInit) :
  urlQuery (url (requestFor this (uid this ++ getQueryString params) options))
  = getQueryString params.
Proof.
  apply endpoint_query; [exact uid_safe|apply urlQuery_getQueryString].
Qed.

Lemma item_query (i : JsId) (params : option JsObject) (options : RequestInit) :
  idSafe i = true ->
  urlQuery (url (requestFor this
                   (uid this ++ "/" ++ renderId i ++ getQueryString params)
                   options))
  = getQueryString params.
Proof.
  intros Hi.
  rewrite <- (append_assoc (uid this) "/" (renderId i ++ getQueryString params)).
  rewrite <- (append_assoc (uid this ++ "/") (renderId i) (getQueryString params)).
  apply endpoint_query; [|apply urlQuery_getQueryString].
  rewrite !lacks_app, uid_safe, (renderId_safe i Hi). reflexivity.
Qed.

Lemma collection_bare (options : RequestInit) :
  urlQuery (url (requestFor this (uid this) options)) = "".
Proof.
  rewrite <- (append_empty_r (uid this)).
  now apply endpoint_query.
Qed.

Lemma item_bare (i : JsId) (options : RequestInit) :
  idSafe i = true ->
  urlQuery (url (requestFor this (uid this ++ "/" ++ renderId i) options)) = "".
Proof.
  intros Hi.
  rewrite <- (append_empty_r (uid this ++ "/" ++ renderId i)).
  apply endpoint_query; [|reflexivity].
  rewrite !lacks_app, uid_safe, (renderId_safe i Hi). reflexivity.
Qed.

End UrlFacts.

Section KeyFacts.

Lemma hasKey_set (k k' : string) (v : JsValue) (o : JsObject) :
  Js.hasKey k (Js.set k' v o) = (Js.hasKey k o || String.eqb k' k)%bool.
Proof.
  induction o as [|[k0 v0] o IH]; cbn [Js.set Js.hasKey existsb fst].
  - now rewrite orb_false_r.
  - destruct (String.eqb k0 k') eqn:E0; cbn [Js.hasKey existsb fst].
    + apply String.eqb_eq in E0. subst k0.
      destruct (String.eqb k' k); [reflexivity|]. cbn. now rewrite orb_false_r.
    + fold (Js.hasKey k (Js.set k' v o)). rewrite IH.
      now rewrite orb_assoc.
Qed.

Lemma hasKey_spread (k : string) (a b : JsObject) :
  Js.hasKey k (Js.spread a b) = (Js.hasKey k a || Js.hasKey k b)%bool.
Proof.
  unfold Js.spread. revert a.
  induction b as [|[k0 v0] b IH]; intros a; cbn [fold_left fst snd].
  - cbn. now rewrite orb_false_r.
  - rewrite IH, hasKey_set. cbn [Js.hasKey existsb fst].
    now rewrite orb_assoc.
Qed.

Lemma filtersPart_no_locale (filters : option JsValue) :
  Js.hasKey "locale" (filtersPart filters) = false.
Proof.
  destruct filters as [f|]; [|reflexivity].
  cbn. now destruct (Js.truthy f).
Qed.

Lemma upsertSearchParams_no_locale (params : JsObject) (filters : option JsValue) :
  Js.hasKey "locale" params = false ->
  Js.hasKey "locale" (ClientA.upsertSearchParams params filters defaultLocale) = false.
Proof.
  intros Hp. unfold ClientA.upsertSearchParams.
  rewrite hasKey_spread, hasKey_set, hasKey_spread, Hp, filtersPart_no_locale.
  reflexivity.
Qed.

End KeyFacts.

Section LocaleFacts.

Context {T : Type} `{StrapiEntity T}.
Variable fetch : Transport T.
Variable this : StrapiClient.

Lemma dataOrEmpty_records (b : Body T) (x : option T) (items : list (option T)) :
  dataOrEmpty b = DMany (x :: items) -> b = BObj (DMany (x :: items)).
Proof.
  unfold dataOrEmpty. destruct b as [|[|r|l]]; cbn; try discriminate.
  now intros [= ->].
Qed.

Lemma existingIdA_safe (answer : FetchResult T) (b : Body T) (d : Data T) :
  parsedBody answer = Some b -> dataOrEmpty b = d ->
  answerSafe answer = true -> idSafe (ClientA.existingId d) = true.
Proof.
  intros P D S. unfold answerSafe in S. rewrite P in S.
  unfold ClientA.existingId.
  destruct d as [|r|[|[r|] items]]; try reflexivity.
  apply dataOrEmpty_records in D. subst b.
  cbn in S. apply andb_prop in S as [S _].
  unfold recordSafe in S. apply andb_prop in S as [_ S].
  cbn [first]. destruct (documentId r); [exact S|reflexivity].
Qed.

Lemma existingIdB_safe (answer : FetchResult T) (b : Body T) (d : Data T) (r : T) :
  parsedBody answer = Some b -> dataOrEmpty b = d -> first d = Some r ->
  answerSafe answer = true -> idSafe (ClientB.existingId r) = true.
Proof.
  intros P D F S. unfold answerSafe in S. rewrite P in S.
  destruct d as [|r0|[|x items]]; try discriminate.
  cbn in F. subst x.
  apply dataOrEmpty_records in D. subst b.
  cbn in S. apply andb_prop in S as [S _].
  unfold recordSafe in S. apply andb_prop in S as [S1 S2].
  unfold ClientB.existingId. destruct (documentId r); assumption.
Qed.

Lemma default_locale_same (revision : Revision) (call : Call) :
  perform revision fetch this (withLocale call None)
  = perform revision fetch this (withLocale call (Some defaultLocale)).
Proof. destruct revision, call; reflexivity. Qed.

Ltac answers_safe Hsafe :=
  repeat match type of Hsafe with
         | forall x, In x (?e :: ?rest) -> _ =>
             let S := fresh "S" in
             pose proof (Hsafe e (or_introl eq_refl)) as S;
             cbn [snd] in S;
             let Hrest := fresh "Hrest" in
             assert (Hrest : forall x, In x rest -> answerSafe (snd x) = true)
               by (intros x Hx; apply Hsafe; right; exact Hx);
             clear Hsafe; rename Hrest into Hsafe
         end.

Ltac solve_id Hsafe :=
  first
    [ assumption
    | reflexivity
    | match goal with
      | P : settle _ ?a = (None, ?b), D : dataOrEmpty ?b = ?d
        |- idSafe (ClientA.existingId ?d) = true =>
          apply (existingIdA_safe a b d);
          [ eapply settle_parsed; [|exact P]; reflexivity
          | exact D
          | assumption ]
      | P : settle _ ?a = (None, ?b), D : dataOrEmpty ?b = ?d,
        F : first ?d = Some ?r
        |- idSafe (ClientB.existingId ?r) = true =>
          apply (existingIdB_safe a b d r);
          [ eapply settle_parsed; [|exact P]; reflexivity
          | exact D
          | exact F
          | assumption ]
      end ].

(** C8, amended: in either revision and for every operation, the call with
    the locale left out and the call with the locale [en] are the same
    computation, so they send byte-identical requests.  When the params of the
    call carry no [locale] of their own (and neither the base URL, the
    resource name nor an identifier brings a [?] into the path), no request of
    the call has a [locale] parameter in its query string. *)
Theorem C8_default_locale_adds_no_locale_parameter
    (revision : Revision) (call : Call) :
  perform revision fetch this (withLocale call None)
  = perform revision fetch this (withLocale call (Some defaultLocale))
  /\ (Js.hasKey "locale" (paramsOf call) = false ->
      Str.lacks "?" (baseURL this) = true ->
      Str.lacks "?" (uid this) = true ->
      idSafe (idOf call) = true ->
      (forall x : Exchange T,
          In x (snd (run (perform revision fetch this (withLocale call None)))) ->
          answerSafe (snd x) = true) ->
      forall req : Request,
        In req (requestsOf
                  (snd (run (perform revision fetch this (withLocale call None))))) ->
        hasParam "locale" (urlQuery (url req)) = false).
Proof.
  split; [apply default_locale_same|].
  intros Hkey Hbase Huid Hid Hsafe req Hreq.
  destruct (run (perform revision fetch this (withLocale call None)))
    as [res w] eqn:Hrun.
  cbn [snd] in *.
  destruct revision, call; cbn [withLocale paramsOf idOf] in *; unfold_methods.
  all: change (orDefaultLocale None) with defaultLocale in Hrun.
  all: cbn [orDefaultLocale] in Hrun.
  all: change (String.eqb defaultLocale defaultLocale) with true in Hrun.
  all: change (localePart (Some defaultLocale)) with (@nil (string * JsValue)) in Hrun.
  all: change (localePart None) with (@nil (string * JsValue)) in Hrun.
  all: cbn [Js.spread fold_left orEmpty] in Hrun.
  all: evaluate fetch Hrun; apply pair_equal_spec in Hrun;
    destruct Hrun as [Hres Hwd]; subst res w.
  all: unfold requestsOf in Hreq; cbn [List.rev List.app map fst] in Hreq.
  all: answers_safe Hsafe.
  all: repeat (destruct Hreq as [Hreq|Hreq]; [subst req|]); try contradiction.
  all: first
         [ rewrite (collection_query this Hbase Huid)
         | rewrite (item_query this Hbase Huid) by solve_id Hsafe
         | rewrite (collection_bare this Hbase Huid)
         | rewrite (item_bare this Hbase Huid) by solve_id Hsafe ].
  all: first
         [ reflexivity
         | apply getQueryString_without_locale;
           first [ exact Hkey | apply upsertSearchParams_no_locale, Hkey ] ].
Qed.

End LocaleFacts.

(** ** The base record of a localized [create] *)

Section BaseStep.

Context {T : Type} `{StrapiEntity T}.
Variable fetch : Transport T.
Variable this : StrapiClient.


Lemma parsed_settle (options : RequestInit) (answer : FetchResult T) (b : Body T) :
  isDELETE (method options) = false ->
  parsedBody answer = Some b -> settle options answer = (None, b).
Proof.
  intros Hd. unfold settle, parsedBody.
  destruct answer as [reason|response]; [discriminate|].
  destruct (ok response); cbn [negb]; [|discriminate].
  destruct (json response); [discriminate|now intros [= <-]].
Qed.


End BaseStep.

(** ** The target of the update in [upsert] *)

Section UpsertTarget.

Context {T : Type} `{StrapiEntity T}.
Variable fetch : Transport T.
Variable this : StrapiClient.

(** The search request of [upsert], in either revision. *)
Lemma upsert_search_request (revision : Revision) (payload : JsObject)
    (filters : option JsValue) (params : option JsObject) (locale : option string) :
  exists (searchReq : Request) (rest : list Request),
    requestsOf (snd (run (perform revision fetch this
                            (CallUpsert payload filters params locale))))
    = searchReq :: rest
    /\ reqMethod searchReq = Some "GET".
Proof.
  destruct (run (perform revision fetch this
                   (CallUpsert payload filters params locale))) as [res w] eqn:Hrun.
  cbn [snd].
  destruct revision; unfold_methods.
  all: evaluate fetch Hrun; apply pair_equal_spec in Hrun;
    destruct Hrun as [Hres Hwd]; subst res w.
  all: unfold requestsOf; cbn [List.rev List.app map fst].
  all: eexists; eexists; split; reflexivity.
Qed.

(** The revision that falls back on the plain identifier: after a search that
    brings back a list whose first element is a record, [upsert] is [update]
    of that record's document identifier if it has one and of its plain
    identifier otherwise. *)
Lemma upsertB_delegates_to_update (payload : JsObject)
    (filters : option JsValue) (params : option JsObject) (locale : option string)
    (w : list (Exchange T)) (r : T) (others : list (option T)) :
  let searchReq :=
    requestFor this
      (uid this ++ getQueryString
         (Some (Js.spread
                  (ClientA.upsertSearchParams (orEmpty params) filters
                     (orDefaultLocale locale))
                  (localePart (Some (orDefaultLocale locale))))))
      (withMethod "GET") in
  parsedBody (fetch w searchReq) = Some (BObj (DMany (Some r :: others))) ->
  ClientB.upsert fetch this payload filters params locale w
  = ClientB.update fetch this
      (match documentId r with Some d => IdStr d | None => id r end)
      payload (Some (orEmpty params)) (Some (orDefaultLocale locale))
      ((searchReq, fetch w searchReq) :: w).
Proof.
  cbv zeta. intros Hp.
  apply (parsed_settle (withMethod "GET")) in Hp; [|reflexivity].
  unfold ClientB.upsert, findMany, bind.
  cbn [orEmpty]. rewrite request_run, Hp. reflexivity.
Qed.

(** The other revision: the same, except that a record without a document
    identifier makes the target [undefined]. *)
Lemma upsertA_delegates_to_update (payload : JsObject)
    (filters : option JsValue) (params : option JsObject) (locale : option string)
    (w : list (Exchange T)) (r : T) (others : list (option T)) :
  let searchReq :=
    requestFor this
      (uid this ++ getQueryString
         (Some (Js.spread
                  (ClientA.upsertSearchParams (orEmpty params) filters
                     (orDefaultLocale locale))
                  (localePart (Some (orDefaultLocale locale))))))
      (withMethod "GET") in
  parsedBody (fetch w searchReq) = Some (BObj (DMany (Some r :: others))) ->
  ClientA.upsert fetch this payload filters params locale w
  = ClientA.update fetch this
      (match documentId r with Some d => IdStr d | None => IdUndefined end)
      payload (Some (orEmpty params)) (Some (orDefaultLocale locale))
      ((searchReq, fetch w searchReq) :: w).
Proof.
  cbv zeta. intros Hp.
  apply (parsed_settle (withMethod "GET")) in Hp; [|reflexivity].
  unfold ClientA.upsert, findMany, bind.
  cbn [orEmpty]. rewrite request_run, Hp.
  cbv beta iota. unfold ret at 1. cbv beta iota.
  unfold dataOrEmpty, ClientA.existingId. cbn.
  destruct (documentId r); reflexivity.
Qed.

End UpsertTarget.

(** ** The suites' scenarios, run *)


(** C2: after a search that finds a record without a document identifier,
    the revision whose fallback repeats the document identifier sends its
    update to [.../undefined]; the other revision sends it to the record's
    plain identifier. *)
Theorem C2_upsert_fallback_target :
  let answers : list (FetchResult TestEntity) :=
    [okJson 200 "OK" (BObj (DMany [Some recordWithoutDocumentId]));
     okJson 200 "OK" (BObj (DOne recordWithoutDocumentId))] in
  let viaA := run (ClientA.upsert (scripted answers) testClient newPayload
                     None None None) in
  let viaB := run (ClientB.upsert (scripted answers) testClient newPayload
                     None None None) in
  map url (requestsOf (snd viaA))
  = ["http://localhost/api/test-entities?pagination%5BpageSize%5D=1";
     "http://localhost/api/test-entities/undefined"]
  /\ map reqMethod (requestsOf (snd viaA)) = [Some "GET"; Some "PUT"]
  /\ map url (requestsOf (snd viaB))
     = ["http://localhost/api/test-entities?pagination%5BpageSize%5D=1";
        "http://localhost/api/test-entities/7"]
  /\ map reqMethod (requestsOf (snd viaB)) = [Some "GET"; Some "PUT"].
Proof. repeat split. Qed.

(** C3 as stated fails: in a locale other than the default, with a search
    that finds no base record, a POST of the base record that is refused
    ends the create after two requests, not three; and a search that brings
    back a record with a document identifier behind a first record without
    one is followed by the POST of a base record, three requests in all, not
    two. *)
Lemma C3_refused_base_post_ends_after_two_requests :
  let refused : list (FetchResult TestEntity) :=
    [okJson 200 "OK" (BObj (DMany [])); notOk 400 "Bad Request"] in
  let w := snd (run (ClientA.create (scripted refused) testClient newPayload
                       None (Some "fr") None)) in
  let second : list (FetchResult TestEntity) :=
    [okJson 200 "OK"
       (BObj (DMany [Some recordWithoutDocumentId; Some recordWithDocumentId]));
     okJson 201 "Created" (BObj (DOne recordWithDocumentId));
     okJson 201 "Created" (BObj (DOne recordWithDocumentId))] in
  let w' := snd (run (ClientA.create (scripted second) testClient newPayload
                        None (Some "fr") None)) in
  (searchFinds (okJson 200 "OK" (BObj (@DMany TestEntity []))) = false
   /\ map snd (List.rev w) = refused
   /\ List.length w = 2%nat
   /\ List.length w <> 3%nat)
  /\ (map snd (List.rev w') = second
      /\ List.length w' = 3%nat
      /\ List.length w' <> 2%nat).
Proof. repeat split; discriminate. Qed.

(** C8 as stated fails: params that carry a locale of their own put a
    [locale] parameter into the query string, with the locale option left
    out and with the locale option [en] alike; so does an identifier that
    brings a query string of its own. *)
Lemma C8_params_locale_reaches_the_query_string :
  let params : option JsObject := Some [("locale", JStr "fr")] in
  let sent (locale : option string) :=
    map url (requestsOf
               (snd (run (findMany (scripted (@nil (FetchResult TestEntity)))
                            testClient params locale)))) in
  let found (locale : option string) :=
    map url (requestsOf
               (snd (run (find (scripted (@nil (FetchResult TestEntity)))
                            testClient (IdStr "1?locale=fr") None locale)))) in
  (sent None = ["http://localhost/api/test-entities?locale=fr"]
   /\ sent (Some "en") = ["http://localhost/api/test-entities?locale=fr"]
   /\ hasParam "locale" (urlQuery "http://localhost/api/test-entities?locale=fr")
      = true)
  /\ (found None = ["http://localhost/api/test-entities/1?locale=fr"]
      /\ found (Some "en") = ["http://localhost/api/test-entities/1?locale=fr"]
      /\ hasParam "locale"
           (urlQuery "http://localhost/api/test-entities/1?locale=fr")
         = true).
Proof. repeat split. Qed.

(** ** The theorems at the suites' scenarios *)

Lemma C4_witness :
  let outcome := run (perform RevB (scripted refusedThirdStep) testClient
                        (CallUpsert newPayload None None (Some "fr"))) in
  @nil (Exchange TestEntity) = []
  /\ fst outcome =
     Fulfilled
       (Some {| message := "Strapi API error: 500 Internal Server Error";
                status := Some 500%Z |},
        DNull).
Proof.
  cbv zeta.
  apply (C4_http_failure_returned_once (scripted refusedThirdStep) testClient
           RevB (CallUpsert newPayload None None (Some "fr"))
           []
           (tl (snd (run (perform RevB (scripted refusedThirdStep) testClient
                            (CallUpsert newPayload None None (Some "fr"))))))
           (requestFor testClient "test-entities"
              (withBody "POST" (JObj (ClientB.withDefaultLocale newPayload))))
           {| ok := false; httpStatus := 500; statusText := "Internal Server Error";
              json := JsonThrows "json is not a function" |}).
  - reflexivity.
  - reflexivity.
  - reflexivity.
Defined.

Lemma C5_witness :
  let outcome := run (perform RevA (scripted [okUnparsable 200 "OK" "No content"])
                        testClient (CallDelete (IdNum 1) (Some "fr"))) in
  @nil (Exchange TestEntity) = []
  /\ (exists (i : JsId) (locale : option string),
         CallDelete (IdNum 1) (Some "fr") = CallDelete i locale)
  /\ fst outcome = Fulfilled (None, @DNull TestEntity).
Proof.
  cbv zeta.
  exact (C5_unparsable_body (scripted [okUnparsable 200 "OK" "No content"])
           testClient RevA (CallDelete (IdNum 1) (Some "fr")) [] []
           (requestFor testClient "test-entities/1?locale=fr" (withMethod "DELETE"))
           {| ok := true; httpStatus := 200; statusText := "OK";
              json := JsonThrows "No content" |}
           "No content" eq_refl eq_refl eq_refl eq_refl).
Defined.

Lemma C3_witness :
  Json.serializable (JObj newPayload) = true
  /\ orDefaultLocale (Some "fr") <> defaultLocale
  /\ List.length
       (snd (run (perform RevA (scripted threeSteps) testClient
                    (CallCreate newPayload None (Some "fr") None)))) = 3%nat.
Proof.
  split; [reflexivity|]. split; [discriminate|].
  destruct (C3_create_request_counts (scripted threeSteps) testClient RevA
              newPayload None (Some "fr") None eq_refl) as [_ Hother].
  destruct Hother as (search & a1 & rest & _ & _ & _ & Ha1 & _ & _ & Hcreate);
    [discriminate|].
  injection Ha1 as <-.
  destruct (Hcreate eq_refl eq_refl) as (post & a2 & Ha2 & Hshape & _).
  injection Ha2 as <-.
  exact (proj1 Hshape).
Defined.


Lemma C8_witness :
  perform RevA (scripted foundThenUpdated) testClient
    (withLocale (CallUpsert newPayload None None None) None)
  = perform RevA (scripted foundThenUpdated) testClient
      (withLocale (CallUpsert newPayload None None None) (Some defaultLocale))
  /\ hasParam "locale" (urlQuery "http://localhost/api/test-entities/doc1") = false
  /\ hasParam "locale"
       (urlQuery "http://localhost/api/test-entities?pagination%5BpageSize%5D=1")
     = false.
Proof.
  destruct (C8_default_locale_adds_no_locale_parameter
              (scripted foundThenUpdated) testClient RevA
              (CallUpsert newPayload None None None)) as [Hsame Hnone].
  split; [exact Hsame|].
  assert (Hsafe : forall x : Exchange TestEntity,
             In x (snd (run (perform RevA (scripted foundThenUpdated) testClient
                               (withLocale (CallUpsert newPayload None None None)
                                  None)))) ->
             answerSafe (snd x) = true).
  { intros x [<-|[<-|[]]]; reflexivity. }
  split.
  - apply (Hnone eq_refl eq_refl eq_refl eq_refl Hsafe
             (requestFor testClient "test-entities/doc1"
                (withBody "PUT" (JObj newPayload)))).
    right. left. reflexivity.
  - apply (Hnone eq_refl eq_refl eq_refl eq_refl Hsafe
             (requestFor testClient
                "test-entities?pagination%5BpageSize%5D=1" (withMethod "GET"))).
    left. reflexivity.
Defined.

(** ** Further facts about every operation *)

Section EveryOperation.

Context {T : Type} `{StrapiEntity T}.
Variable fetch : Transport T.
Variable this : StrapiClient.

Lemma settle_rejects (options : RequestInit) (reason : string) :
  settle options (@FetchRejects T reason) = (Some (transportError reason), BNull).
Proof. reflexivity. Qed.

(** A call of the transport that fails (the promise of [fetch] rejects) is the
    last exchange of the operation, in either revision and for every
    operation, and the operation returns an error whose message wraps the
    transport's reason and which has no status, with null data. *)
Theorem transport_failure_returned_once (revision : Revision) (call : Call)
    (post pre : list (Exchange T)) (req : Request) (reason : string) :
  snd (run (perform revision fetch this call))
    = post ++ (req, FetchRejects reason) :: pre ->
  post = []
  /\ fst (run (perform revision fetch this call)) =
     Fulfilled
       (Some {| message := ("Strapi API error: " ++ reason)%string;
                status := None |},
        DNull).
Proof.
  intros Hw.
  destruct (run (perform revision fetch this call)) as [res w] eqn:Hrun.
  cbn [fst snd] in *.
  destruct revision, call; unfold_methods.
  all: evaluate fetch Hrun; apply pair_equal_spec in Hrun;
    destruct Hrun as [Hres Hwd]; subst res w; locate Hw; subst.
  all: repeat match goal with
              | E : settle _ (FetchRejects _) = _ |- _ =>
                  rewrite settle_rejects in E; inversion E; clear E
              end; try discriminate.
  all: split; reflexivity.
Qed.

(** No operation returns an error together with data: beside an error the
    data is null. *)
Theorem error_excludes_data (revision : Revision) (call : Call)
    (e : ServiceError) (d : Data T) :
  fst (run (perform revision fetch this call)) = Fulfilled (Some e, d) ->
  d = DNull.
Proof.
  intros Hres.
  destruct (run (perform revision fetch this call)) as [res w] eqn:Hrun.
  cbn [fst] in Hres. subst res.
  destruct revision, call; unfold_methods.
  all: evaluate fetch Hrun; apply pair_equal_spec in Hrun;
    destruct Hrun as [Hres Hwd]; congruence.
Qed.

(** What the operations throw.  A thrown [TypeError] of [JSON.stringify]
    means the payload of the call cannot be serialized; a thrown [TypeError]
    of reading [documentId] means the call is a create or upsert in a
    non-default locale and its last answer, to a POST or a PUT, is a success
    whose [data] is null or absent.  Conversely, [update] and a create in the
    default locale throw before any request when the payload cannot be
    serialized, and a localized create whose search finds no base record
    throws after its second request when the POST of the base record is
    answered by a success whose [data] is null or absent. *)
Theorem what_operations_throw (revision : Revision) (call : Call) :
  match fst (run (perform revision fetch this call)) with
  | Fulfilled _ => True
  | Rejected TypeErrorNotSerializable =>
      Json.serializable (JObj (payloadOf call)) = false
  | Rejected TypeErrorReadingDocumentId =>
      localizedWrite call = true
      /\ exists (req : Request) (answer : FetchResult T)
                (earlier : list (Exchange T)),
           snd (run (perform revision fetch this call))
             = (req, answer) :: earlier
           /\ parsedBody answer = Some (BObj DNull)
           /\ (reqMethod req = Some "POST" \/ reqMethod req = Some "PUT")
  end
  /\ (Json.serializable (JObj (payloadOf call)) = false ->
      match call with
      | CallUpdate _ _ _ _ =>
          run (perform revision fetch this call)
          = (Rejected TypeErrorNotSerializable, [])
      | CallCreate _ _ _ _ =>
          localizedWrite call = false ->
          run (perform revision fetch this call)
          = (Rejected TypeErrorNotSerializable, [])
      | _ => True
      end)
  /\ (forall (req1 req2 : Request) (a1 a2 : FetchResult T)
             (later : list (Exchange T)),
         match call with
         | CallCreate _ _ _ _ =>
             localizedWrite call = true ->
             List.rev (snd (run (perform revision fetch this call)))
               = (req1, a1) :: (req2, a2) :: later ->
             searchFinds a1 = false ->
             parsedBody a2 = Some (BObj DNull) ->
             later = []
             /\ fst (run (perform revision fetch this call))
                = Rejected TypeErrorReadingDocumentId
         | _ => True
         end).
Proof.
  split; [|split].
  - pose proof (serializable_withDefaultLocale (payloadOf call)) as Hs'.
    destruct (run (perform revision fetch this call)) as [res w] eqn:Hrun.
    cbn [fst snd].
    destruct revision, call; unfold_methods; cbn [localizedWrite payloadOf] in *.
    all: evaluate fetch Hrun; apply pair_equal_spec in Hrun;
      destruct Hrun as [Hres Hwd]; subst res w; try exact I.
    all: try reflexivity.
    all: try (destruct (Json.serializable (JObj payload));
              [specialize (Hs' eq_refl); discriminate Hs'|reflexivity]).
    all: split;
      [ cbn [orDefaultLocale] in *;
        repeat match goal with E : String.eqb _ _ = _ |- _ => rewrite E end;
        reflexivity | ].
    all: eexists; eexists; eexists; split; [reflexivity|].
    all: split; [|cbn; auto].
    all: match goal with
         | E : settle ?o ?a = (None, BObj DNull) |- parsedBody ?a = _ =>
             apply (settle_parsed o a _ eq_refl E)
         end.
  - intros Hs.
    destruct revision, call; try exact I; cbn [payloadOf localizedWrite] in *.
    + intros Hl. apply negb_false_iff in Hl.
      unfold run, perform, ClientA.create, bind, jsonStringify.
      now rewrite Hl, Hs.
    + unfold run, perform, ClientA.update, bind, jsonStringify. now rewrite Hs.
    + intros Hl. apply negb_false_iff in Hl.
      unfold run, perform, ClientB.create, bind, jsonStringify.
      now rewrite Hl, Hs.
    + unfold run, perform, ClientB.update, bind, jsonStringify. now rewrite Hs.
  - intros req1 req2 a1 a2 later.
    destruct call; try exact I. cbn [localizedWrite].
    intros Hl Hw Hf Hp. apply negb_true_iff in Hl.
    destruct (run (perform revision fetch this
                     (CallCreate payload params locale filters)))
      as [res w] eqn:Hrun.
    cbn [fst snd] in *.
    destruct revision; unfold_methods.
    all: rewrite Hl in Hrun.
    all: evaluate fetch Hrun; apply pair_equal_spec in Hrun;
      destruct Hrun as [Hres Hwd]; subst res w.
    all: cbn [List.rev List.app] in Hw; try discriminate Hw.
    all: apply (f_equal (@List.length _)) in Hw as Hlen; cbn in Hlen;
      try discriminate Hlen.
    all: injection Hw as ? ? ? ? ?; subst.
    all: unfold searchFinds in Hf.
    all: repeat match goal with
                | E : settle noOptions ?a = (None, ?b) |- _ =>
                    rewrite (settle_parsed noOptions a b eq_refl E) in Hf; clear E
                | E : settle noOptions ?a = (Some _, _) |- _ =>
                    rewrite (settle_error_parsed noOptions a _ _ eq_refl E) in Hf;
                    clear E
                end.
    all: repeat match goal with F : foundBase _ = _ |- _ => rewrite F in Hf end.
    all: try discriminate Hf.
    all: repeat match goal with
                | E : settle ?o ?a = (None, ?b), P : parsedBody ?a = _ |- _ =>
                    rewrite (settle_parsed o a b eq_refl E) in P; clear E
                | E : settle ?o ?a = (Some _, _), P : parsedBody ?a = _ |- _ =>
                    rewrite (settle_error_parsed o a _ _ eq_refl E) in P; clear E
                end.
    all: try discriminate.
    all: split; reflexivity.
Qed.

(** Every operation calls the transport at most [maxRequests] times: once for
    [findMany], [find], [update], [delete] and a create in the default locale,
    three times for a localized create, twice for an upsert in the default
    locale and four times for a localized upsert; and at least once when its
    payload can be serialized (reads and [delete] have none). *)
Theorem request_count_bounds (revision : Revision) (call : Call) :
  ((if Json.serializable (JObj (payloadOf call)) then 1 else 0)
   <= List.length (snd (run (perform revision fetch this call)))
   <= maxRequests call)%nat.
Proof.
  destruct (run (perform revision fetch this call)) as [res w] eqn:Hrun.
  cbn [snd].
  destruct revision, call; unfold_methods;
    cbn [maxRequests localizedWrite payloadOf].
  all: evaluate fetch Hrun; apply pair_equal_spec in Hrun;
    destruct Hrun as [Hres Hwd]; subst res w.
  all: cbn [orDefaultLocale] in *.
  all: repeat match goal with E : String.eqb _ _ = _ |- _ => rewrite E end.
  all: cbn [negb List.length].
  all: repeat match goal with
              | |- context [if ?c then _ else _] => destruct c
              end.
  all: lia.
Qed.

Lemma every_request_shape (revision : Revision) (call : Call) :
  Forall (fun req : Request =>
            reqHeaders req = headers this
            /\ exists endpoint : string,
                 url req = (baseURL this ++ "/" ++ endpoint)%string
                 /\ Str.stripLeadingSlashes endpoint = endpoint)
         (requestsOf (snd (run (perform revision fetch this call)))).
Proof.
  assert (Hidem : forall s, Str.stripLeadingSlashes (Str.stripLeadingSlashes s)
                            = Str.stripLeadingSlashes s).
  { induction s as [|c s IH]; [reflexivity|]. cbn.
    destruct (Ascii.eqb c "/") eqn:E; [exact IH|]. cbn. now rewrite E. }
  destruct (run (perform revision fetch this call)) as [res w] eqn:Hrun.
  cbn [snd].
  destruct revision, call; unfold_methods.
  all: evaluate fetch Hrun; apply pair_equal_spec in Hrun;
    destruct Hrun as [Hres Hwd]; subst res w.
  all: unfold requestsOf; cbn [List.rev List.app map fst].
  all: repeat constructor; eexists; (split; [reflexivity|apply Hidem]).
Qed.

(** [findMany] and [find] only read: each sends one GET without a body. *)
Theorem reads_send_one_GET (revision : Revision) (call : Call) :
  match call with
  | CallFindMany _ _ | CallFind _ _ _ =>
      exists req : Request,
        requestsOf (snd (run (perform revision fetch this call))) = [req]
        /\ reqMethod req = Some "GET" /\ reqBody req = None
  | _ => True
  end.
Proof.
  destruct (run (perform revision fetch this call)) as [res w] eqn:Hrun.
  cbn [snd].
  destruct revision, call; try exact I; unfold_methods.
  all: evaluate fetch Hrun; apply pair_equal_spec in Hrun;
    destruct Hrun as [Hres Hwd]; subst res w.
  all: unfold requestsOf; cbn [List.rev List.app map fst].
  all: eexists; repeat split.
Qed.

(** [findMany] never returns null data on success: a [null] or absent
    [data], and a JSON [null] body, come back as the empty array. *)
Theorem findMany_success_is_never_null
    (params : option JsObject) (locale : option string) :
  match fst (run (findMany fetch this params locale)) with
  | Fulfilled (None, d) =>
      d <> DNull
      /\ exists (req : Request) (answer : FetchResult T) (b : Body T),
           snd (run (findMany fetch this params locale)) = [(req, answer)]
           /\ parsedBody answer = Some b
           /\ d = match b with
                  | BNull | BObj DNull => DMany []
                  | BObj found => found
                  end
  | Fulfilled (Some _, d) => d = DNull
  | Rejected _ => False
  end.
Proof.
  destruct (run (findMany fetch this params locale)) as [res w] eqn:Hrun.
  cbn [fst snd].
  unfold run, findMany in Hrun.
  evaluate fetch Hrun; apply pair_equal_spec in Hrun;
    destruct Hrun as [Hres Hwd]; subst res w; [reflexivity|].
  match goal with
  | E : settle ?o ?a = (None, ?b) |- _ =>
      pose proof (settle_parsed o a b eq_refl E) as P
  end.
  split.
  - unfold dataOrEmpty, dataOf. destruct b as [|[|r|l]]; discriminate.
  - eexists; eexists; eexists. split; [reflexivity|]. split; [exact P|].
    unfold dataOrEmpty, dataOf. destruct b as [|[|r|l]]; reflexivity.
Qed.

End EveryOperation.

(** ** Endpoints, objects and query strings: further facts *)

Section ObjectFacts.

Lemma stripLeading_slashes (n : nat) (e : string) :
  Str.stripLeadingSlashes (Str.slashes n ++ e) = Str.stripLeadingSlashes e.
Proof. induction n as [|n IH]; [reflexivity|exact IH]. Qed.

Lemma normalize_endsWith (s : string) :
  Str.endsWith (normalizeBaseURL s) apiSegment = true.
Proof.
  unfold normalizeBaseURL.
  destruct (Str.endsWith (Str.stripTrailingSlashes s) apiSegment) eqn:E;
    cbn [negb]; [exact E|apply endsWith_app].
Qed.

Lemma get_set_same (k : string) (v : JsValue) (o : JsObject) :
  Js.get k (Js.set k v o) = v.
Proof.
  induction o as [|[k0 v0] o IH]; cbn [Js.set Js.get].
  - now rewrite String.eqb_refl.
  - destruct (String.eqb k0 k) eqn:E; cbn [Js.get]; rewrite E; [reflexivity|exact IH].
Qed.

Lemma get_set_other (k k' : string) (v : JsValue) (o : JsObject) :
  String.eqb k' k = false -> Js.get k (Js.set k' v o) = Js.get k o.
Proof.
  intros Hk. induction o as [|[k0 v0] o IH]; cbn [Js.set Js.get].
  - now rewrite Hk.
  - destruct (String.eqb k0 k') eqn:E; cbn [Js.get].
    + apply String.eqb_eq in E. subst k0. now rewrite Hk.
    + now rewrite IH.
Qed.

Lemma get_localePart_other (k : string) (o : JsObject) (locale : option string) :
  String.eqb "locale" k = false ->
  Js.get k (Js.spread o (localePart locale)) = Js.get k o.
Proof.
  intros Hk. unfold localePart.
  destruct locale as [l|]; [|reflexivity].
  destruct (negb (String.eqb l "") && negb (String.eqb l defaultLocale))%bool;
    [|reflexivity].
  cbn. now apply get_set_other.
Qed.

Lemma set_In (k : string) (v : JsValue) (o : JsObject) :
  In (k, v) (Js.set k v o).
Proof.
  induction o as [|[k0 v0] o IH]; cbn [Js.set]; [now left|].
  destruct (String.eqb k0 k) eqn:E.
  - apply String.eqb_eq in E. subst k0. now left.
  - right. exact IH.
Qed.

Lemma pairs_of_string_property (k s : string) (o : JsObject) :
  In (k, JStr s) o -> In (Qs.encode k, Qs.encode s) (Qs.pairs o).
Proof.
  induction o as [|[k0 v0] o IH]; cbn [In Qs.pairs]; [tauto|].
  intros [E|Hin]; apply in_or_app.
  - injection E as -> ->. left. now left.
  - right. now apply IH.
Qed.

Lemma pairs_separated (o : JsObject) :
  Forall (fun kv => Str.lacks "&" (fst kv) = true
                    /\ Str.lacks "=" (fst kv) = true
                    /\ Str.lacks "&" (snd kv) = true)
         (Qs.pairs o).
Proof.
  induction o as [|[top v] o IH]; cbn [Qs.pairs]; [constructor|].
  apply Forall_app. split; [|exact IH].
  eapply Forall_impl; [|apply flatten_ok].
  intros kv (_ & H1 & H2 & H3). auto.
Qed.

Lemma names_read_back (p : string * string) (ps : list (string * string)) :
  Forall (fun kv => Str.lacks "&" (fst kv) = true
                    /\ Str.lacks "=" (fst kv) = true
                    /\ Str.lacks "&" (snd kv) = true) (p :: ps) ->
  map (Str.before "=")
    (Str.split "&"
       (Str.join "&" (map (fun kv => (fst kv ++ "=" ++ snd kv)%string) (p :: ps))))
  = map fst (p :: ps).
Proof.
  intros Hall. cbn [map]. rewrite split_join.
  - rewrite <- (map_cons (fun kv => (fst kv ++ "=" ++ snd kv)%string)).
    rewrite <- (map_cons fst).
    induction Hall as [|kv rest (H1 & H2 & H3) _ IH]; [reflexivity|].
    cbn [map]. rewrite IH. f_equal.
    change (fst kv ++ "=" ++ snd kv)%string with (fst kv ++ String "=" (snd kv))%string.
    now apply before_app.
  - rewrite <- (map_cons (fun kv => (fst kv ++ "=" ++ snd kv)%string)).
    apply Forall_map. eapply Forall_impl; [|exact Hall].
    intros kv (H1 & H2 & H3). cbn beta.
    rewrite lacks_app, H1. cbn. exact H3.
Qed.

(** Reading back the helper's output: the parameter names of
    [getQueryString] applied to a struct that serializes to at least one pair
    are the encoded, bracketed keys of the struct, in order. *)
Theorem getQueryString_names_read_back (o : JsObject) :
  Qs.pairs o <> [] ->
  paramNames (getQueryString (Some o)) = map fst (Qs.pairs o).
Proof.
  intros Hne. unfold getQueryString.
  destruct o as [|kv o]; [now contradiction Hne|]. cbn [List.length Nat.eqb].
  unfold paramNames, Qs.stringify.
  cbn [dropQuestionMark String.append]. rewrite Ascii.eqb_refl.
  pose proof (pairs_separated (kv :: o)) as Hall.
  destruct (Qs.pairs (kv :: o)) as [|p ps]; [now contradiction Hne|].
  now apply names_read_back.
Qed.

Lemma encode_plainTag (s : string) : plainTag s = true -> Qs.encode s = s.
Proof.
  induction s as [|c s IH]; [reflexivity|].
  cbn [plainTag Qs.encode]. intros Hs. apply andb_prop in Hs as [Hc Hs].
  rewrite Hc, (IH Hs). reflexivity.
Qed.

Lemma locale_query (l : string) :
  getQueryString (Some (Js.spread [] [("locale", JStr l)]))
  = ("?locale=" ++ Qs.encode l)%string.
Proof. reflexivity. Qed.

End ObjectFacts.

Section Composition.

Context {T : Type} `{StrapiEntity T}.
Variable fetch : Transport T.
Variable this : StrapiClient.

(** Leading slashes of an endpoint do not matter to [request]. *)
Theorem request_ignores_leading_slashes (n : nat) (endpoint : string)
    (options : RequestInit) :
  request fetch this (Str.slashes n ++ endpoint) options
  = request fetch this endpoint options.
Proof. unfold request. now rewrite stripLeading_slashes. Qed.

(** A locale that is neither empty nor the default reaches the request of
    [findMany], and it wins over a [locale] the params carry: the one request
    goes to the base URL, a slash and the resource name followed by the query
    string of the params with [locale] set to the argument, and that query
    string has a [locale] parameter.  When neither the base URL nor the
    resource name holds a question mark, that query string is what follows
    the first question mark of the URL. *)
Theorem findMany_locale_reaches_query (params : option JsObject) (l : string) :
  l <> "" -> l <> defaultLocale ->
  let sent := Js.set "locale" (JStr l) (orEmpty params) in
  Js.get "locale" sent = JStr l
  /\ map url (requestsOf (snd (run (findMany fetch this params (Some l)))))
     = [(baseURL this ++ "/"
         ++ Str.stripLeadingSlashes (uid this ++ getQueryString (Some sent)))%string]
  /\ hasParam "locale" (getQueryString (Some sent)) = true
  /\ (Str.lacks "?" (baseURL this) = true ->
      Str.lacks "?" (uid this) = true ->
      map (fun req => urlQuery (url req))
          (requestsOf (snd (run (findMany fetch this params (Some l)))))
      = [getQueryString (Some sent)]).
Proof.
  intros Hne Hnd. cbv zeta.
  assert (Hpart : localePart (Some l) = [("locale", JStr l)]).
  { unfold localePart. apply String.eqb_neq in Hne, Hnd. now rewrite Hne, Hnd. }
  split; [apply get_set_same|]. split; [|split].
  - unfold run. rewrite findMany_world. cbv zeta.
    unfold requestsOf. cbn [List.rev List.app map fst url requestFor].
    now rewrite Hpart.
  - unfold hasParam.
    assert (Hin : In ("locale", Qs.encode l)
                     (Qs.pairs (Js.set "locale" (JStr l) (orEmpty params)))).
    { apply (pairs_of_string_property "locale" l), set_In. }
    rewrite getQueryString_names_read_back.
    + apply existsb_exists. exists "locale". split; [|reflexivity].
      apply (in_map fst) in Hin. exact Hin.
    + intros E. rewrite E in Hin. contradiction.
  - intros Hbase Huid.
    unfold run. rewrite findMany_world. cbv zeta.
    unfold requestsOf. cbn [List.rev List.app map fst].
    rewrite (collection_query this Hbase Huid).
    now rewrite Hpart.
Qed.

(** [delete] in the first revision, for every locale: the item URL, followed
    by [?locale=] and the percent-encoded locale unless the locale is left
    out, empty or the default. *)
Theorem deleteA_url (i : JsId) (locale : option string) :
  map url (requestsOf (snd (run (ClientA.delete fetch this i locale))))
  = [((baseURL this ++ "/"
       ++ Str.stripLeadingSlashes (uid this ++ "/" ++ renderId i))
      ++ match locale with
         | Some l =>
             if (String.eqb l "" || String.eqb l defaultLocale)%bool then ""
             else "?locale=" ++ Qs.encode l
         | None => ""
         end)%string].
Proof.
  unfold run. rewrite deleteA_world. cbv zeta.
  unfold requestsOf. cbn [List.rev List.app map fst url requestFor].
  f_equal.
  assert (Hbare : forall x : string,
             (baseURL this ++ "/" ++ Str.stripLeadingSlashes (x ++ ""))%string
             = ((baseURL this ++ "/" ++ Str.stripLeadingSlashes x) ++ "")%string).
  { intros x. now rewrite !append_empty_r. }
  unfold localePart.
  destruct locale as [l|].
  - destruct (String.eqb l "") eqn:E1; cbn [negb andb orb].
    + cbn [Js.spread fold_left getQueryString List.length Nat.eqb].
      rewrite <- (append_assoc (uid this) "/" (renderId i ++ "")).
      rewrite <- (append_assoc (uid this ++ "/") (renderId i) "").
      rewrite (append_assoc (uid this) "/" (renderId i)). apply Hbare.
    + destruct (String.eqb l defaultLocale) eqn:E2; cbn [negb].
      * cbn [Js.spread fold_left getQueryString List.length Nat.eqb].
        rewrite <- (append_assoc (uid this) "/" (renderId i ++ "")).
        rewrite <- (append_assoc (uid this ++ "/") (renderId i) "").
        rewrite (append_assoc (uid this) "/" (renderId i)). apply Hbare.
      * rewrite locale_query.
        rewrite <- (append_assoc (uid this) "/" (renderId i ++ _)).
        rewrite <- (append_assoc (uid this ++ "/") (renderId i) _).
        rewrite stripLeading_app by reflexivity.
        rewrite (append_assoc (uid this) "/" (renderId i)).
        now rewrite !append_assoc.
  - cbn [Js.spread fold_left getQueryString List.length Nat.eqb].
    rewrite <- (append_assoc (uid this) "/" (renderId i ++ "")).
    rewrite <- (append_assoc (uid this ++ "/") (renderId i) "").
    rewrite (append_assoc (uid this) "/" (renderId i)). apply Hbare.
Qed.

(** The two revisions of [update] are the same computation when the first is
    given no params and the locale is a non-empty tag of letters, digits and
    [- . _ ~]; the second never reads its params. *)
Theorem update_revisions_agree (i : JsId) (payload : JsObject)
    (params : option JsObject) (l : string) :
  l <> "" -> plainTag l = true ->
  ClientA.update fetch this i payload None (Some l)
  = ClientB.update fetch this i payload params (Some l).
Proof.
  intros Hne Hplain. apply String.eqb_neq in Hne.
  unfold ClientA.update, ClientB.update.
  cbn [orEmpty orDefaultLocale]. unfold localePart. rewrite Hne. cbn [negb andb].
  destruct (String.eqb l defaultLocale) eqn:E; cbn [negb].
  - cbn [Js.spread fold_left getQueryString List.length Nat.eqb].
    now rewrite append_empty_r.
  - rewrite locale_query, (encode_plainTag l Hplain). reflexivity.
Qed.

(** What the requests of a call carry: a read ([GET]), a [DELETE] and the
    method-less search of a localized create carry no body; every other
    request is a [POST] or a [PUT] that carries the caller's payload as it
    is, except the POST of the base record of a localized write in the second
    revision, which goes to the collection endpoint with the payload changed
    by [withDefaultLocale].  That object reads like the payload at every
    property but [data], and its [data] reads like the payload's [data] at
    every property but [locale], which is the default locale. *)
Theorem request_bodies (revision : Revision) (call : Call) :
  Forall (bodyAllowed revision this call)
         (requestsOf (snd (run (perform revision fetch this call))))
  /\ (forall k : string,
        Js.get k (ClientB.withDefaultLocale (payloadOf call))
        = if String.eqb "data" k
          then JObj (Js.set "locale" (JStr defaultLocale)
                            (Js.props (Js.get "data" (payloadOf call))))
          else Js.get k (payloadOf call))
  /\ (forall k : string,
        Js.get k (Js.set "locale" (JStr defaultLocale)
                         (Js.props (Js.get "data" (payloadOf call))))
        = if String.eqb "locale" k then JStr defaultLocale
          else Js.get k (Js.props (Js.get "data" (payloadOf call)))).
Proof.
  split; [|split].
  - destruct (run (perform revision fetch this call)) as [res w] eqn:Hrun.
    cbn [snd].
    destruct revision, call; unfold_methods; cbn [payloadOf localizedWrite].
    all: evaluate fetch Hrun; apply pair_equal_spec in Hrun;
      destruct Hrun as [Hres Hwd]; subst res w.
    all: unfold requestsOf; cbn [List.rev List.app map fst].
    all: repeat (apply Forall_cons; [|]); try apply Forall_nil.
    all: unfold bodyAllowed;
      cbn [reqBody reqMethod requestFor withMethod withBody noOptions method body
           payloadOf localizedWrite].
    all: cbn [orDefaultLocale] in *.
    all: repeat match goal with E : String.eqb _ _ = _ |- _ => rewrite E end.
    all: cbn [negb].
    all: auto 12.
  - intros k. unfold ClientB.withDefaultLocale.
    cbn [Js.spread fold_left fst snd].
    destruct (String.eqb "data" k) eqn:E.
    + apply String.eqb_eq in E. subst k. apply get_set_same.
    + now apply get_set_other.
  - intros k. destruct (String.eqb "locale" k) eqn:E.
    + apply String.eqb_eq in E. subst k. apply get_set_same.
    + now apply get_set_other.
Qed.

End Composition.

(** ** Clients made by the constructor, and how the writes compose *)

Section Composition2.

Context {T : Type} `{StrapiEntity T}.
Variable fetch : Transport T.

(** For a client made by the constructor, every request of every operation
    is sent to the normalized base URL (which ends with the API segment), a
    slash and an endpoint without leading slash; it declares JSON content and
    carries [Authorization: Bearer <token>] exactly when a non-empty token was
    given. *)
Theorem constructed_client_requests (base resource : string)
    (token : option string) (revision : Revision) (call : Call) :
  Str.endsWith (normalizeBaseURL base) apiSegment = true
  /\ Forall (fun req : Request =>
               getHeader "Content-Type" (reqHeaders req) = Some "application/json"
               /\ getHeader "Authorization" (reqHeaders req)
                  = match token with
                    | Some t =>
                        if String.eqb t "" then None
                        else Some ("Bearer " ++ t)%string
                    | None => None
                    end
               /\ exists endpoint : string,
                    url req = (normalizeBaseURL base ++ "/" ++ endpoint)%string
                    /\ Str.stripLeadingSlashes endpoint = endpoint)
            (requestsOf
               (snd (run (perform revision fetch
                            (constructor base resource token) call)))).
Proof.
  split; [apply normalize_endsWith|].
  eapply Forall_impl;
    [|apply (every_request_shape fetch (constructor base resource token))].
  intros req (Hh & e & Hu). rewrite Hh.
  split; [reflexivity|]. split.
  - destruct token as [t|]; [|reflexivity].
    cbn. destruct (String.eqb t ""); reflexivity.
  - exists e. exact Hu.
Qed.

Variable this : StrapiClient.

(** The search of [upsert] always asks for a page of one record, whatever
    pagination the params carry; it carries the filters option when there is
    one, and the locale when it is neither empty nor the default. *)
Theorem upsert_search_object (params : JsObject) (filters : option JsValue)
    (locale : string) :
  let o := ClientA.upsertSearchParams params filters locale in
  Js.get "pagination" o = JObj [("pageSize", JNum 1)]
  /\ Js.get "filters" o
     = match filtersPart filters with
       | [] => Js.get "filters" params
       | _ => match filters with Some f => f | None => JUndefined end
       end
  /\ Js.get "locale" o
     = if (String.eqb locale "" || String.eqb locale defaultLocale)%bool
       then Js.get "locale" params
       else JStr locale.
Proof.
  cbv zeta. unfold ClientA.upsertSearchParams. repeat split.
  - rewrite get_localePart_other by reflexivity. apply get_set_same.
  - rewrite get_localePart_other by reflexivity.
    rewrite get_set_other by reflexivity.
    unfold filtersPart. destruct filters as [f|]; [|reflexivity].
    destruct (Js.truthy f); [|reflexivity].
    cbn. apply get_set_same.
  - unfold localePart.
    destruct (String.eqb locale "") eqn:E1; cbn [negb andb orb].
    + cbn. rewrite get_set_other by reflexivity.
      unfold filtersPart. destruct filters as [f|]; [|reflexivity].
      destruct (Js.truthy f); [|reflexivity]. cbn.
      now rewrite get_set_other.
    + destruct (String.eqb locale defaultLocale) eqn:E2; cbn [negb].
      * cbn. rewrite get_set_other by reflexivity.
        unfold filtersPart. destruct filters as [f|]; [|reflexivity].
        destruct (Js.truthy f); [|reflexivity]. cbn.
        now rewrite get_set_other.
      * cbn. apply get_set_same.
Qed.

(** When the search of [upsert] comes back without a first element (an empty
    or absent list), [upsert] is [create] with the same payload, params,
    locale and filters, run after the search, in either revision. *)
Theorem upsert_without_match_is_create (revision : Revision)
    (payload : JsObject) (filters : option JsValue) (params : option JsObject)
    (locale : option string) (w : list (Exchange T)) (b : Body T) :
  let searchReq :=
    requestFor this
      (uid this ++ getQueryString
         (Some (Js.spread
                  (ClientA.upsertSearchParams (orEmpty params) filters
                     (orDefaultLocale locale))
                  (localePart (Some (orDefaultLocale locale))))))
      (withMethod "GET") in
  parsedBody (fetch w searchReq) = Some b ->
  lengthPositive (dataOrEmpty b) = false ->
  perform revision fetch this (CallUpsert payload filters params locale) w
  = perform revision fetch this
      (CallCreate payload (Some (orEmpty params))
         (Some (orDefaultLocale locale))
         (match filtersPart filters with [] => None | _ => filters end))
      ((searchReq, fetch w searchReq) :: w).
Proof.
  cbv zeta. intros Hp Hl.
  apply (parsed_settle (withMethod "GET")) in Hp; [|reflexivity].
  destruct revision; cbn [perform].
  - unfold ClientA.upsert, findMany, bind.
    cbn [orEmpty]. rewrite request_run, Hp.
    cbv beta iota. unfold ret at 1. cbv beta iota.
    rewrite Hl, andb_false_r. reflexivity.
  - unfold ClientB.upsert, findMany, bind.
    cbn [orEmpty]. rewrite request_run, Hp.
    cbv beta iota. unfold ret at 1. cbv beta iota.
    rewrite Hl, andb_false_r. reflexivity.
Qed.

(** A localized [create] of a payload that [JSON.stringify] accepts, whose
    search finds a base record, sends exactly one more request, to the item
    endpoint of that record's document identifier and with the caller's
    payload: a POST whose query string is the params
    with the locale in the first revision, a PUT with [?locale=<locale>]
    written out in the second. *)
Theorem create_on_found_base (revision : Revision) (payload : JsObject)
    (params : option JsObject) (locale : string) (filters : option JsValue)
    (b : Body T) (d : string) :
  let searchReq :=
    requestFor this
      (uid this ++ getQueryString
         (Some (match revision with
                | RevA => Js.spread (orEmpty params) (filtersPart filters)
                | RevB => Js.spread (Js.spread (orEmpty params) (filtersPart filters))
                            [("locale", JStr defaultLocale)]
                end)))
      noOptions in
  let writeReq :=
    match revision with
    | RevA =>
        requestFor this
          (uid this ++ "/" ++ d
           ++ getQueryString
                (Some (Js.spread (orEmpty params) [("locale", JStr locale)])))
          (withBody "POST" (JObj payload))
    | RevB =>
        requestFor this (uid this ++ "/" ++ d ++ "?locale=" ++ locale)
          (withBody "PUT" (JObj payload))
    end in
  Json.serializable (JObj payload) = true ->
  locale <> defaultLocale ->
  parsedBody (fetch [] searchReq) = Some b ->
  foundBase b = Some d ->
  requestsOf (snd (run (perform revision fetch this
                          (CallCreate payload params (Some locale) filters))))
  = [searchReq; writeReq].
Proof.
  cbv zeta. intros Hs Hl Hp Hf. apply String.eqb_neq in Hl.
  apply (parsed_settle noOptions) in Hp; [|reflexivity].
  destruct revision; cbn [perform]; unfold run.
  - unfold ClientA.create, bind, jsonStringify. cbn [orDefaultLocale].
    rewrite Hl, Hs.
    rewrite request_run, Hp. cbv beta iota. rewrite Hf.
    unfold ret. cbv beta iota. rewrite request_run. clear Hp.
    match goal with
    | |- context [settle ?o ?a] => destruct (settle o a) as [[e|] b']
    end; reflexivity.
  - unfold ClientB.create, bind, jsonStringify. cbn [orDefaultLocale].
    rewrite Hl, Hs.
    rewrite request_run, Hp. cbv beta iota. rewrite Hf.
    unfold ret. cbv beta iota. rewrite request_run. clear Hp.
    unfold createdBase.
    match goal with
    | |- context [settle ?o ?a] => destruct (settle o a) as [[e|] [|[|r|l]]]
    end; try reflexivity.
    destruct (truthyDocumentId (Some r)); reflexivity.
Qed.

(** The second revision never hands back a localized record without a
    document identifier: a localized [create] that returns no error returns
    null or a record whose document identifier is a non-empty string. *)
Theorem createB_localized_result (payload : JsObject) (params : option JsObject)
    (locale : option string) (filters : option JsValue) (d : Data T) :
  orDefaultLocale locale <> defaultLocale ->
  fst (run (ClientB.create fetch this payload params locale filters))
    = Fulfilled (None, d) ->
  d = DNull
  \/ exists (r : T) (doc : string),
       d = DOne r /\ documentId r = Some doc /\ doc <> "".
Proof.
  intros Hl Hres. apply String.eqb_neq in Hl.
  destruct (run (ClientB.create fetch this payload params locale filters))
    as [res w] eqn:Hrun.
  cbn [fst] in Hres. subst res.
  unfold run, ClientB.create, createdBase in Hrun. rewrite Hl in Hrun.
  evaluate fetch Hrun; apply pair_equal_spec in Hrun;
    destruct Hrun as [Hres Hwd]; try discriminate Hres.
  all: injection Hres as <-; auto.
  all: right.
  all: match goal with
       | E : truthyDocumentId (Some ?r) = Some _ |- exists _ _, DOne ?r = _ /\ _ =>
           unfold truthyDocumentId in E;
           destruct (documentId r) as [doc|] eqn:Ed; [|discriminate E];
           destruct (String.eqb doc "") eqn:Ee; [discriminate E|];
           exists r, doc; repeat split; [exact Ed|apply String.eqb_neq; exact Ee]
       end.
Qed.

End Composition2.

(** ** The further facts at the suites' scenarios *)

Lemma transport_failure_returned_once_witness :
  let fetch : Transport TestEntity := scripted [okJson 200 "OK" (BObj (DMany []))] in
  let outcome := run (perform RevA fetch testClient
                        (CallUpsert newPayload None None None)) in
  @nil (Exchange TestEntity) = []
  /\ fst outcome =
     Fulfilled
       (Some {| message := "Strapi API error: no more responses";
                status := None |},
        DNull).
Proof.
  cbv zeta.
  apply (transport_failure_returned_once
           (scripted [okJson 200 "OK" (BObj (DMany []))]) testClient
           RevA (CallUpsert newPayload None None None)
           []
           (tl (snd (run (perform RevA
                            (scripted [okJson 200 "OK" (BObj (@DMany TestEntity []))])
                            testClient (CallUpsert newPayload None None None)))))
           (requestFor testClient "test-entities"
              (withBody "POST" (JObj newPayload)))
           "no more responses").
  reflexivity.
Defined.

Lemma error_excludes_data_witness :
  fst (run (perform RevB (scripted refusedThirdStep) testClient
              (CallUpsert newPayload None None (Some "fr"))))
  = Fulfilled
      (Some {| message := "Strapi API error: 500 Internal Server Error";
               status := Some 500%Z |},
       @DNull TestEntity)
  /\ @DNull TestEntity = DNull.
Proof.
  split; [reflexivity|].
  apply (error_excludes_data (scripted refusedThirdStep) testClient RevB
           (CallUpsert newPayload None None (Some "fr"))
           {| message := "Strapi API error: 500 Internal Server Error";
              status := Some 500%Z |}
           DNull).
  reflexivity.
Defined.

Lemma what_operations_throw_witness :
  let nullBase : list (FetchResult TestEntity) :=
    [okJson 200 "OK" (BObj (DMany [])); okJson 201 "Created" (BObj DNull)] in
  let counted : JsObject := [("data", JObj [("views", JBigInt 1)])] in
  fst (run (perform RevA (scripted nullBase) testClient
              (CallCreate newPayload None (Some "fr") None)))
    = Rejected TypeErrorReadingDocumentId
  /\ run (perform RevB (scripted nullBase) testClient
            (CallUpdate (IdNum 1) counted None None))
     = (Rejected TypeErrorNotSerializable, []).
Proof.
  cbv zeta. split.
  - destruct (what_operations_throw
                (scripted [okJson 200 "OK" (BObj (DMany []));
                           okJson 201 "Created" (BObj DNull)])
                testClient RevA
                (CallCreate newPayload None (Some "fr") None))
      as (_ & _ & Hnull).
    exact (proj2 (Hnull (requestFor testClient "test-entities" noOptions)
                        (requestFor testClient "test-entities"
                           (withBody "POST" (JObj newPayload)))
                        (okJson 200 "OK" (BObj (@DMany TestEntity [])))
                        (okJson 201 "Created" (BObj (@DNull TestEntity)))
                        [] eq_refl eq_refl eq_refl eq_refl)).
  - destruct (what_operations_throw
                (scripted [okJson 200 "OK" (BObj (DMany []));
                           okJson 201 "Created" (BObj DNull)])
                testClient RevB
                (CallUpdate (IdNum 1) [("data", JObj [("views", JBigInt 1)])]
                   None None))
      as (_ & Hthrows & _).
    exact (Hthrows eq_refl).
Defined.

Lemma getQueryString_names_read_back_witness :
  paramNames
    (getQueryString
       (Some [("filters", JObj [("name", JObj [("$eq", JStr "a b")])]);
              ("populate", JArr [JStr "*"]);
              ("locale", JStr "fr")]))
  = ["filters%5Bname%5D%5B%24eq%5D"; "populate%5B0%5D"; "locale"].
Proof.
  apply (getQueryString_names_read_back
           [("filters", JObj [("name", JObj [("$eq", JStr "a b")])]);
            ("populate", JArr [JStr "*"]);
            ("locale", JStr "fr")]).
  discriminate.
Defined.

Lemma findMany_locale_reaches_query_witness :
  let fetch := scripted (@nil (FetchResult TestEntity)) in
  let sent := Js.set "locale" (JStr "fr") [("locale", JStr "de")] in
  Js.get "locale" sent = JStr "fr"
  /\ map url
         (requestsOf
            (snd (run (findMany fetch testClient
                         (Some [("locale", JStr "de")]) (Some "fr")))))
     = ["http://localhost/api/test-entities?locale=fr"]
  /\ hasParam "locale" "?locale=fr" = true
  /\ (Str.lacks "?" (baseURL testClient) = true ->
      Str.lacks "?" (uid testClient) = true ->
      map (fun req => urlQuery (url req))
          (requestsOf
             (snd (run (findMany fetch testClient
                          (Some [("locale", JStr "de")]) (Some "fr")))))
      = ["?locale=fr"]).
Proof.
  apply (findMany_locale_reaches_query
           (scripted (@nil (FetchResult TestEntity))) testClient
           (Some [("locale", JStr "de")]) "fr").
  - discriminate.
  - discriminate.
Defined.

Lemma update_revisions_agree_witness :
  ClientA.update (scripted foundThenUpdated) testClient (IdNum 1) newPayload
    None (Some "fr")
  = ClientB.update (scripted foundThenUpdated) testClient (IdNum 1) newPayload
      (Some [("populate", JArr [JStr "*"])]) (Some "fr").
Proof.
  apply (update_revisions_agree (scripted foundThenUpdated) testClient
           (IdNum 1) newPayload (Some [("populate", JArr [JStr "*"])]) "fr").
  - discriminate.
  - reflexivity.
Defined.

Lemma upsert_without_match_is_create_witness :
  perform RevA (scripted threeSteps) testClient
    (CallUpsert newPayload None None None) []
  = perform RevA (scripted threeSteps) testClient
      (CallCreate newPayload (Some []) (Some "en") None)
      [(requestFor testClient
          "test-entities?pagination%5BpageSize%5D=1" (withMethod "GET"),
        okJson 200 "OK" (BObj (DMany [])))].
Proof.
  apply (upsert_without_match_is_create (scripted threeSteps) testClient RevA
           newPayload None None None [] (BObj (DMany []))).
  - reflexivity.
  - reflexivity.
Defined.

Lemma create_on_found_base_witness :
  map url
    (requestsOf
       (snd (run (perform RevB (scripted foundThenUpdated) testClient
                    (CallCreate newPayload None (Some "fr") None)))))
  = ["http://localhost/api/test-entities?locale=en";
     "http://localhost/api/test-entities/doc1?locale=fr"].
Proof.
  rewrite (create_on_found_base (scripted foundThenUpdated) testClient RevB
             newPayload None "fr" None
             (BObj (DMany [Some recordWithDocumentId])) "doc1").
  - reflexivity.
  - reflexivity.
  - discriminate.
  - reflexivity.
  - reflexivity.
Defined.

Lemma createB_localized_result_witness :
  @DOne TestEntity recordWithDocumentId = DNull
  \/ exists (r : TestEntity) (doc : string),
       DOne recordWithDocumentId = DOne r
       /\ documentId r = Some doc /\ doc <> "".
Proof.
  apply (createB_localized_result (scripted threeSteps) testClient
           newPayload None (Some "fr") None (DOne recordWithDocumentId)).
  - discriminate.
  - reflexivity.
Defined.

Lemma upsertB_delegates_to_update_witness :
  ClientB.upsert (scripted foundThenUpdated) testClient newPayload None None None []
  = ClientB.update (scripted foundThenUpdated) testClient (IdStr "doc1")
      newPayload (Some []) (Some "en")
      [(requestFor testClient
          "test-entities?pagination%5BpageSize%5D=1" (withMethod "GET"),
        okJson 200 "OK" (BObj (DMany [Some recordWithDocumentId])))].
Proof.
  exact (upsertB_delegates_to_update (scripted foundThenUpdated) testClient
           newPayload None None None [] recordWithDocumentId [] eq_refl).
Defined.
